(** * PacketProcessor of dashboard.py: a shallow embedding

    The development follows [src/dashboard.py], class [PacketProcessor]
    (lines 25-109).  Python objects become Rocq data, the mutable processor
    object becomes an explicit state, and the two effects of the per-packet
    pipeline, exceptions and output on the logging and UI channels, are
    threaded through a small state-and-exception monad. *)

From stdpp Require Import gmap strings list pretty.

Local Open Scope Z_scope.

(** ** Python values and exceptions *)

(** An exception object: an instance of [Exception] with its class name and
    the text [str(e)] gives.  These are the errors the handlers of the source
    ([except Exception as e]) are written for. *)
Record exn := Exn { exn_class : string; exn_str : string }.

Global Instance exn_eq_dec : EqDecision exn.
Proof. solve_decision. Defined.

(** Result of evaluating a Python expression or call. *)
Inductive outcome (A : Type) : Type :=
  | Returns (a : A)
  | Raises (e : exn).
Arguments Returns {A} a.
Arguments Raises {A} e.

Global Instance outcome_eq_dec {A} `{EqDecision A} : EqDecision (outcome A).
Proof. solve_decision. Defined.

(** The values stored in a [packet_info] dict.  Timestamps are microseconds
    since the epoch; [time_relative] is kept as the microsecond count of the
    timedelta whose [total_seconds()] the source stores; coordinates are the
    numbers the geocoder returned, which the pipeline only copies. *)
Inductive value : Type :=
  | VStr (s : string)
  | VInt (n : Z)
  | VDatetime (t : Z)
  | VSeconds (us : Z)
  | VCoord (c : Z)
  | VFlags (f : Z).

Global Instance value_eq_dec : EqDecision value.
Proof. solve_decision. Defined.

(** A [packet_info] dict: string keys. *)
Abbreviation packet_info := (gmap string value).

(** An alert condition is a Python callable applied to the dict: it returns
    a truth value or raises. *)
Definition condition : Type := packet_info → outcome bool.

(** ** Scapy packets *)

Record IP := { ip_src : string; ip_dst : string; ip_proto : Z }.
Record TCP := { tcp_sport : Z; tcp_dport : Z; tcp_flagsval : Z }.
Record UDP := { udp_sport : Z; udp_dport : Z }.

Inductive layer : Type :=
  | LayerIP (h : IP)
  | LayerTCP (h : TCP)
  | LayerUDP (h : UDP)
  | LayerOther (name : string).

(** A dissected packet: its stack of layers, outermost first, and the number
    of bytes [len(packet)] reports. *)
Record Packet := { layers : list layer; wire_len : nat }.

(** [packet.getlayer(cls)]: the first layer of the class, if any. *)
Fixpoint first_IP (ls : list layer) : option IP :=
  match ls with
  | [] => None
  | LayerIP h :: _ => Some h
  | _ :: rest => first_IP rest
  end.

Fixpoint first_TCP (ls : list layer) : option TCP :=
  match ls with
  | [] => None
  | LayerTCP h :: _ => Some h
  | _ :: rest => first_TCP rest
  end.

Fixpoint first_UDP (ls : list layer) : option UDP :=
  match ls with
  | [] => None
  | LayerUDP h :: _ => Some h
  | _ :: rest => first_UDP rest
  end.

(** [IP in packet], [TCP in packet], [UDP in packet]. *)
Definition IP_in (p : Packet) : bool := bool_decide (is_Some (first_IP (layers p))).
Definition TCP_in (p : Packet) : bool := bool_decide (is_Some (first_TCP (layers p))).
Definition UDP_in (p : Packet) : bool := bool_decide (is_Some (first_UDP (layers p))).

(** ** The processor object and the world around it *)

(** Fields of [PacketProcessor.__init__] (lines 28-39).  The lock and the
    geolocator are not data: the lock brackets the body of [process_packet],
    the geolocator is the collaborator of [environment] below. *)
Record PacketProcessor := {
  protocol_map : gmap Z string;
  packet_data : list packet_info;
  start_time : Z;
  packet_count : Z;
  alerts : list (condition * string);
}.

(** Observable effects, oldest first. *)
Inductive event : Type :=
  | Called (i : nat)            (* the condition of rule number i was called *)
  | StWarning (msg : string)    (* st.warning(msg) *)
  | LogError (msg : string).    (* logger.error(msg) *)

Record World := { self : PacketProcessor; trace : list event }.

(** [__init__], at time [now]. *)
Definition init (now : Z) : PacketProcessor :=
  {| protocol_map := {[ 1 := "ICMP"; 6 := "TCP"; 17 := "UDP" ]};
     packet_data := [];
     start_time := now;
     packet_count := 0;
     alerts := [] |}.

(** ** The monad: state that survives a raise *)

Definition M (A : Type) : Type := World → outcome A * World.

Definition ret {A} (a : A) : M A := λ w, (Returns a, w).

Definition bind {A B} (m : M A) (k : A → M B) : M B :=
  λ w, match m w with
       | (Returns a, w') => k a w'
       | (Raises e, w') => (Raises e, w')
       end.

Definition raise {A} (e : exn) : M A := λ w, (Raises e, w).

(** [try: body except Exception as e: handler(e)]. *)
Definition try_except {A} (body : M A) (handler : exn → M A) : M A :=
  λ w, match body w with
       | (Returns a, w') => (Returns a, w')
       | (Raises e, w') => handler e w'
       end.

(** [with self.lock: body]: the lock is acquired on entry and released on
    every exit, normal or exceptional; a sequential run never finds it
    taken, so the bracket leaves the body as it is. *)
Definition with_lock {A} (body : M A) : M A := body.

Definition emit (ev : event) : M unit :=
  λ w, (Returns tt, {| self := self w; trace := trace w ++ [ev] |}).

Definition get_self : M PacketProcessor := λ w, (Returns (self w), w).

Definition modify_self (f : PacketProcessor → PacketProcessor) : M unit :=
  λ w, (Returns tt, {| self := f (self w); trace := trace w |}).

(** Lift a call that returns or raises without touching the state. *)
Definition call {A} (r : outcome A) : M A := λ w, (r, w).

(** stdpp's notations [x ← m; k] and [m ;; k] for this monad. *)
Global Instance M_ret : MRet M := @ret.
Global Instance M_bind : MBind M := λ A B k m, bind m k.

(** ** Protocol classifier (lines 41-43) *)

(** [self.protocol_map.get(protocol_num, f'OTHER({protocol_num})')];
    [pretty] prints an integer in decimal with a leading minus sign, as
    Python's formatting of an int does. *)
Definition get_protocol_name (p : PacketProcessor) (protocol_num : Z) : string :=
  default ("OTHER(" +:+ pretty protocol_num +:+ ")") (protocol_map p !! protocol_num).

(** ** Alert rules (lines 45-53) *)

Definition set_alerts (v : list (condition * string)) (p : PacketProcessor) : PacketProcessor :=
  {| protocol_map := protocol_map p; packet_data := packet_data p;
     start_time := start_time p; packet_count := packet_count p; alerts := v |}.

Definition set_packet_data (v : list packet_info) (p : PacketProcessor) : PacketProcessor :=
  {| protocol_map := protocol_map p; packet_data := v;
     start_time := start_time p; packet_count := packet_count p; alerts := alerts p |}.

Definition set_packet_count (v : Z) (p : PacketProcessor) : PacketProcessor :=
  {| protocol_map := protocol_map p; packet_data := packet_data p;
     start_time := start_time p; packet_count := v; alerts := alerts p |}.

(** [self.alerts.append((condition, message))]. *)
Definition add_alert (cond : condition) (message : string) : M unit :=
  modify_self (λ p, set_alerts (alerts p ++ [(cond, message)]) p).

Definition st_warning (msg : string) : M unit := emit (StWarning msg).
Definition logger_error (msg : string) : M unit := emit (LogError msg).

(** The loop of [check_alerts] over the rules from number [i] on: call the
    condition on the dict; a true result shows the warning; a raise leaves
    the loop. *)
Fixpoint check_rules (packet_info : packet_info) (i : nat)
    (rules : list (condition * string)) : M unit :=
  match rules with
  | [] => mret tt
  | (cond, message) :: rest =>
      emit (Called i);;
      b ← call (cond packet_info);
      (if b : bool then st_warning ("Alert: " +:+ message) else mret tt);;
      check_rules packet_info (S i) rest
  end.

Definition check_alerts (packet_info : packet_info) : M unit :=
  p ← get_self;
  check_rules packet_info 0 (alerts p).

(** ** The per-packet pipeline (lines 55-104) *)

Record Location := { latitude : Z; longitude : Z }.

(** What one call of [process_packet] reads from outside the processor: the
    two readings of [datetime.now()] (lines 61 and 66) and the geocoding
    collaborator, which returns a location, returns [None], or raises. *)
Record environment := {
  now_timestamp : Z;
  now_relative : Z;
  geocode : string → outcome (option Location);
}.

(** [packet[IP]], [packet[TCP]], [packet[UDP]]: scapy raises [IndexError]
    when the layer is missing. *)
Definition getitem_IP (packet : Packet) : M IP :=
  match first_IP (layers packet) with
  | Some h => mret h
  | None => raise (Exn "IndexError" "Layer [IP] not found")
  end.

Definition getitem_TCP (packet : Packet) : M TCP :=
  match first_TCP (layers packet) with
  | Some h => mret h
  | None => raise (Exn "IndexError" "Layer [TCP] not found")
  end.

Definition getitem_UDP (packet : Packet) : M UDP :=
  match first_UDP (layers packet) with
  | Some h => mret h
  | None => raise (Exn "IndexError" "Layer [UDP] not found")
  end.

(** Lines 60-67: the dict literal. *)
Definition base_info (env : environment) (packet : Packet) : M packet_info :=
  p ← get_self;
  h_src ← getitem_IP packet;
  h_dst ← getitem_IP packet;
  h_proto ← getitem_IP packet;
  mret (<["timestamp" := VDatetime (now_timestamp env)]>
       (<["source" := VStr (ip_src h_src)]>
       (<["destination" := VStr (ip_dst h_dst)]>
       (<["protocol" := VStr (get_protocol_name p (ip_proto h_proto))]>
       (<["size" := VInt (Z.of_nat (wire_len packet))]>
       (<["time_relative" := VSeconds (now_relative env - start_time p)]> ∅)))))).

(** Lines 69-82: [packet_info.update({...})] for TCP, else for UDP. *)
Definition add_transport (packet : Packet) (info : packet_info) : M packet_info :=
  if TCP_in packet then
    h_sport ← getitem_TCP packet;
    h_dport ← getitem_TCP packet;
    h_flags ← getitem_TCP packet;
    mret (<["src_port" := VInt (tcp_sport h_sport)]>
         (<["dst_port" := VInt (tcp_dport h_dport)]>
         (<["tcp_flags" := VFlags (tcp_flagsval h_flags)]> info)))
  else if UDP_in packet then
    h_sport ← getitem_UDP packet;
    h_dport ← getitem_UDP packet;
    mret (<["src_port" := VInt (udp_sport h_sport)]>
         (<["dst_port" := VInt (udp_dport h_dport)]> info))
  else mret info.

(** Lines 84-91: the inner [try] around the geocoder. *)
Definition add_geo (env : environment) (packet : Packet) (info : packet_info) : M packet_info :=
  try_except
    (h ← getitem_IP packet;
     location ← call (geocode env (ip_src h));
     match location with
     | Some loc =>
         mret (<["longitude" := VCoord (longitude loc)]>
              (<["latitude" := VCoord (latitude loc)]> info))
     | None => mret info
     end)
    (λ e, logger_error ("Error in geolocation: " +:+ exn_str e);; mret info).

(** [self.packet_data.pop(0)]. *)
Definition pop_front : M unit :=
  p ← get_self;
  match packet_data p with
  | [] => raise (Exn "IndexError" "pop from empty list")
  | _ :: rest => modify_self (set_packet_data rest)
  end.

(** Lines 96-101: append, count, and drop the oldest above 10000. *)
Definition append_record (info : packet_info) : M unit :=
  modify_self (λ p, set_packet_data (packet_data p ++ [info]) p);;
  modify_self (λ p, set_packet_count (packet_count p + 1) p);;
  p ← get_self;
  if bool_decide (10000 < Z.of_nat (length (packet_data p))) then pop_front else mret tt.

Definition process_packet (env : environment) (packet : Packet) : M unit :=
  try_except
    (if IP_in packet then
       with_lock
         (info ← base_info env packet;
          info ← add_transport packet info;
          info ← add_geo env packet info;
          check_alerts info;;
          append_record info)
     else mret tt)
    (λ e, logger_error ("Error processing packet: " +:+ exn_str e)).

(** The rule [main] registers (lines 207-210):
    [lambda pkt: pkt['protocol'] == 'TCP' and pkt['size'] > 1000]. *)
Definition large_tcp : condition := λ pkt,
  match pkt !! "protocol" with
  | None => Raises (Exn "KeyError" "'protocol'")
  | Some proto =>
      if bool_decide (proto = VStr "TCP") then
        match pkt !! "size" with
        | None => Raises (Exn "KeyError" "'size'")
        | Some (VInt n) => Returns (bool_decide (1000 < n))
        | Some _ => Raises (Exn "TypeError" "'>' not supported")
        end
      else Returns false
  end.

Definition large_tcp_message : string := "Large TCP packet detected".

(** ** Test data *)

Definition tcp_packet : Packet :=
  {| layers := [LayerOther "Ether";
                LayerIP {| ip_src := "10.0.0.1"; ip_dst := "10.0.0.2"; ip_proto := 6 |};
                LayerTCP {| tcp_sport := 1234; tcp_dport := 80; tcp_flagsval := 2 |}];
     wire_len := 1500 |}.

Definition env0 : environment :=
  {| now_timestamp := 1000; now_relative := 1001; geocode := λ _, Returns None |}.

Definition w0 : World := {| self := init 0; trace := [] |}.

(** ** Stage equations

    Each stage of the pipeline is summarised by the value it returns and
    the events it adds; the summaries below are proved equal to the
    monadic code above and are what the properties are stated with. *)

Definition add_events (evs : list event) (w : World) : World :=
  {| self := self w; trace := trace w ++ evs |}.

Definition set_self (p : PacketProcessor) (w : World) : World :=
  {| self := p; trace := trace w |}.

(** The dict of lines 60-67. *)
Definition base_dict (env : environment) (p : PacketProcessor) (h : IP)
    (packet : Packet) : packet_info :=
  <["timestamp" := VDatetime (now_timestamp env)]>
  (<["source" := VStr (ip_src h)]>
  (<["destination" := VStr (ip_dst h)]>
  (<["protocol" := VStr (get_protocol_name p (ip_proto h))]>
  (<["size" := VInt (Z.of_nat (wire_len packet))]>
  (<["time_relative" := VSeconds (now_relative env - start_time p)]> ∅))))).

(** The dict after lines 69-82. *)
Definition transport_dict (packet : Packet) (info : packet_info) : packet_info :=
  match first_TCP (layers packet), first_UDP (layers packet) with
  | Some t, _ =>
      <["src_port" := VInt (tcp_sport t)]>
      (<["dst_port" := VInt (tcp_dport t)]>
      (<["tcp_flags" := VFlags (tcp_flagsval t)]> info))
  | None, Some u =>
      <["src_port" := VInt (udp_sport u)]>
      (<["dst_port" := VInt (udp_dport u)]> info)
  | None, None => info
  end.

(** The dict and the log after lines 84-91, from the geocoder's answer. *)
Definition geo_dict (answer : outcome (option Location)) (info : packet_info) : packet_info :=
  match answer with
  | Returns (Some loc) =>
      <["longitude" := VCoord (longitude loc)]>
      (<["latitude" := VCoord (latitude loc)]> info)
  | _ => info
  end.

Definition geo_log (answer : outcome (option Location)) : list event :=
  match answer with
  | Raises e => [LogError ("Error in geolocation: " +:+ exn_str e)]
  | _ => []
  end.

(** Events of one rule that returns: its call, then its warning when the
    condition held. *)
Definition rule_events (info : packet_info) (i : nat) (rule : condition * string) : list event :=
  Called i ::
  match rule.1 info with
  | Returns true => [StWarning ("Alert: " +:+ rule.2)]
  | _ => []
  end.

Fixpoint rules_events (info : packet_info) (i : nat)
    (rules : list (condition * string)) : list event :=
  match rules with
  | [] => []
  | rule :: rest => rule_events info i rule ++ rules_events info (S i) rest
  end.

Definition returns_on (info : packet_info) (rule : condition * string) : Prop :=
  ∃ b, rule.1 info = Returns b.

Definition raises_on (info : packet_info) (e : exn) (rule : condition * string) : Prop :=
  rule.1 info = Raises e.

(** The processor after lines 96-101. *)
Definition evict (data : list packet_info) : list packet_info :=
  if bool_decide (10000 < Z.of_nat (length data)) then tail data else data.

Definition stored (info : packet_info) (p : PacketProcessor) : PacketProcessor :=
  set_packet_data (evict (packet_data p ++ [info]))
    (set_packet_count (packet_count p + 1) p).

(** ** The pipeline as a whole *)

(** The dict a packet with IP header [h] has when it reaches the alert
    check. *)
Definition built_record (env : environment) (p : PacketProcessor) (h : IP)
    (packet : Packet) : packet_info :=
  geo_dict (geocode env (ip_src h)) (transport_dict packet (base_dict env p h packet)).

Definition processing_error (e : exn) : event :=
  LogError ("Error processing packet: " +:+ exn_str e).

(** ** Packets without a network-layer header *)

Definition arp_packet : Packet :=
  {| layers := [LayerOther "Ether"; LayerOther "ARP"]; wire_len := 42 |}.

(** ** Transport fields of the record *)

Definition udp_packet : Packet :=
  {| layers := [LayerOther "Ether";
                LayerIP {| ip_src := "10.0.0.3"; ip_dst := "224.0.0.251"; ip_proto := 17 |};
                LayerUDP {| udp_sport := 5353; udp_dport := 5353 |}];
     wire_len := 200 |}.

Definition icmp_packet : Packet :=
  {| layers := [LayerOther "Ether";
                LayerIP {| ip_src := "10.0.0.4"; ip_dst := "10.0.0.1"; ip_proto := 1 |};
                LayerOther "ICMP"];
     wire_len := 60 |}.

(** ** No exception leaves [process_packet] *)

(** A rule whose condition raises, followed by one that always holds. *)
Definition broken_rule : condition :=
  λ _, Raises (Exn "ZeroDivisionError" "division by zero").

Definition always : condition := λ _, Returns true.

Definition w_broken : World :=
  {| self := set_alerts [(broken_rule, "broken"); (always, "always")] (init 0);
     trace := [] |}.

(** ** Alert evaluation *)

(** The condition calls and the warnings among a list of events. *)
Definition calls (evs : list event) : list nat :=
  omap (λ ev, match ev with Called i => Some i | _ => None end) evs.

Definition warnings (evs : list event) : list string :=
  omap (λ ev, match ev with StWarning msg => Some msg | _ => None end) evs.

Definition errors (evs : list event) : list string :=
  omap (λ ev, match ev with LogError msg => Some msg | _ => None end) evs.

(** The condition of the rule returns a true value on the record. *)
Definition holds_on (info : packet_info) (rule : condition * string) : Prop :=
  rule.1 info = Returns true.

Global Instance holds_on_dec info rule : Decision (holds_on info rule).
Proof. unfold holds_on. apply _. Defined.

(** The session of [main]: its one rule registered. *)
Definition w_main : World :=
  {| self := set_alerts [(large_tcp, large_tcp_message)] (init 0); trace := [] |}.

Definition tcp_info : packet_info :=
  built_record env0 (init 0)
    {| ip_src := "10.0.0.1"; ip_dst := "10.0.0.2"; ip_proto := 6 |} tcp_packet.

(** ** A condition that raises *)

(** The events a call added to the trace. *)
Definition new_events (w w' : World) : list event :=
  drop (length (trace w)) (trace w').

(** Isolation of a failing condition, as the specification words it: when
    some registered condition raises on the record, every registered
    condition is still called, the failure is logged, and the record is
    stored and counted. *)
Definition isolates_condition_failure (env : environment) (packet : Packet)
    (w : World) : Prop :=
  ∀ info w1,
    IP_in packet = true →
    (info ← base_info env packet;
     info ← add_transport packet info;
     add_geo env packet info) w = (Returns info, w1) →
    Exists (λ rule, ∃ e, raises_on info e rule) (alerts (self w)) →
    let w' := (process_packet env packet w).2 in
    calls (new_events w w') = seq 0 (length (alerts (self w))) ∧
    errors (new_events w1 w') ≠ [] ∧
    last (packet_data (self w')) = Some info ∧
    packet_count (self w') = packet_count (self w) + 1.

(** Alert evaluation as the specification words it, for any rule list and
    any record: every registered condition is called, in registration
    order, and there is exactly one warning for each rule whose condition
    holds of the record. *)
Definition evaluates_every_rule (info : packet_info) (w : World) : Prop :=
  let w' := (check_alerts info w).2 in
  calls (new_events w w') = seq 0 (length (alerts (self w))) ∧
  warnings (new_events w w') =
    (λ rule : condition * string, "Alert: " +:+ rule.2) <$>
      filter (holds_on info) (alerts (self w)).

(** ** Geolocation *)

(** The enrichment contract as the specification words it: when the lookup
    raises or finds nothing, the record is left as it was and the failure
    is reported on the log. *)
Definition logs_geolocation_failure (env : environment) (packet : Packet)
    (info : packet_info) (w : World) : Prop :=
  ∀ h,
    first_IP (layers packet) = Some h →
    (∀ loc, geocode env (ip_src h) ≠ Returns (Some loc)) →
    ∃ w',
      add_geo env packet info w = (Returns info, w') ∧
      errors (new_events w w') ≠ [].

Definition env_timeout : environment :=
  {| now_timestamp := 1000; now_relative := 1001;
     geocode := λ _, Raises (Exn "GeocoderTimedOut" "Service timed out") |}.

(** ** The bounded history *)

(** Feeding records to the store one after the other (lines 96-101 for
    each). *)
Fixpoint append_all (records : list packet_info) : M unit :=
  match records with
  | [] => mret tt
  | r :: rest => append_record r;; append_all rest
  end.

(** The capture loop on the packets that arrive, each with what its call
    reads from outside: [sniff(prn=processor.process_packet, store=False)]. *)
Fixpoint capture (inputs : list (environment * Packet)) : M unit :=
  match inputs with
  | [] => mret tt
  | (env, packet) :: rest => process_packet env packet;; capture rest
  end.

(** A record with a sequence id and nothing else. *)
Definition synthetic (id : Z) : packet_info := {[ "seq" := VInt id ]}.

Definition store_all (p : PacketProcessor) (records : list packet_info) : PacketProcessor :=
  foldl (λ p r, stored r p) p records.

(** ** The counter of packets *)

Definition returns_b (info : packet_info) (rule : condition * string) : bool :=
  match rule.1 info with Returns _ => true | Raises _ => false end.

(** The record a call of [process_packet] stores, if it stores one: the
    packet has an IP header and no registered condition raises. *)
Definition stored_record (p : PacketProcessor) (input : environment * Packet) :
    option packet_info :=
  match first_IP (layers input.2) with
  | Some h =>
      let info := built_record input.1 p h input.2 in
      if forallb (returns_b info) (alerts p) then Some info else None
  | None => None
  end.

(** ** Reading the history (lines 106-109) and its uses in [main] *)

(** A pandas frame as far as the dashboard reads it: the set of column
    labels and the rows, oldest first, a row holding the cells that are not
    NaN.  The order of the columns is not kept. *)
Record DataFrame := { df_columns : gset string; df_rows : list packet_info }.

(** [pd.DataFrame(list_of_dicts)]: one row per dict, the columns are the
    keys that occur in some dict. *)
Definition DataFrame_of_dicts (data : list packet_info) : DataFrame :=
  {| df_columns := ⋃ (dom <$> data); df_rows := data |}.

(** Lines 106-109. *)
Definition get_dataframe : M DataFrame :=
  with_lock (p ← get_self; mret (DataFrame_of_dicts (packet_data p))).

(** [len(df)]. *)
Definition df_len (df : DataFrame) : Z := Z.of_nat (length (df_rows df)).

(** [df.tail(n)]: the last [n] rows, the columns kept. *)
Definition df_tail (n : nat) (df : DataFrame) : DataFrame :=
  {| df_columns := df_columns df;
     df_rows := drop (length (df_rows df) - n) (df_rows df) |}.

(** [df[cols]] for a list of labels: [KeyError] when a label is not a
    column, else the frame cut down to these columns. *)
Definition df_select (cols : list string) (df : DataFrame) : outcome DataFrame :=
  if forallb (λ c, bool_decide (c ∈ df_columns df)) cols then
    Returns {| df_columns := list_to_set cols;
               df_rows := filter (λ kv, kv.1 ∈ cols) <$> df_rows df |}
  else Raises (Exn "KeyError" "not in index").

(** Line 190: the number shown as "Total Packets" is [len(df)]. *)
Definition total_packets_metric : M Z :=
  df ← get_dataframe; mret (df_len df).

(** Line 144: the test that guards the map. *)
Definition has_geo_columns (df : DataFrame) : bool :=
  bool_decide ("latitude" ∈ df_columns df) && bool_decide ("longitude" ∈ df_columns df).

(** Lines 200-204: the frame handed to [st.dataframe], if any. *)
Definition recent_columns : list string :=
  ["timestamp"; "source"; "destination"; "protocol"; "size"].

Definition recent_packets (df : DataFrame) : outcome (option DataFrame) :=
  if bool_decide (0 < df_len df) then
    match df_select recent_columns (df_tail 10 df) with
    | Returns shown => Returns (Some shown)
    | Raises e => Raises e
    end
  else Returns None.

(** ** Sessions: calls on one processor, one after the other *)

Inductive method : Type :=
  | ProcessPacket (env : environment) (packet : Packet)
  | AddAlert (cond : condition) (message : string)
  | GetDataframe.

Definition invoke (c : method) : M unit :=
  match c with
  | ProcessPacket env packet => process_packet env packet
  | AddAlert cond message => add_alert cond message
  | GetDataframe => get_dataframe;; mret tt
  end.

Fixpoint session (cs : list method) : M unit :=
  match cs with
  | [] => mret tt
  | c :: rest => invoke c;; session rest
  end.

(** The keys every record gets at lines 60-67. *)
Definition base_keys : gset string :=
  {[ "timestamp"; "source"; "destination"; "protocol"; "size"; "time_relative" ]}.

(** What the readers of the history rely on: the base fields are there,
    and the two coordinates come together. *)
Definition complete_record (r : packet_info) : Prop :=
  base_keys ⊆ dom r ∧ ("latitude" ∈ dom r ↔ "longitude" ∈ dom r).

(** A packet of a tunnel: UDP outside, TCP inside. *)
Definition tunnel_packet : Packet :=
  {| layers := [LayerOther "Ether";
                LayerIP {| ip_src := "192.0.2.1"; ip_dst := "192.0.2.2"; ip_proto := 17 |};
                LayerUDP {| udp_sport := 4789; udp_dport := 4789 |};
                LayerOther "VXLAN"; LayerOther "Ether";
                LayerIP {| ip_src := "10.1.0.1"; ip_dst := "10.1.0.2"; ip_proto := 6 |};
                LayerTCP {| tcp_sport := 40000; tcp_dport := 443; tcp_flagsval := 16 |}];
     wire_len := 1400 |}.

Definition env_found : environment :=
  {| now_timestamp := 1000; now_relative := 1001;
     geocode := λ _, Returns (Some {| latitude := 48; longitude := 2 |}) |}.

(** ** The record stages and the invariant of a session *)

(** Lines 60-91 of [process_packet], the stages that make the record. *)
Definition record_stages (env : environment) (packet : Packet) : M packet_info :=
  info ← base_info env packet;
  info ← add_transport packet info;
  add_geo env packet info.

(** What holds of a processor after any session that began with
    [__init__]. *)
Definition session_invariant (p : PacketProcessor) : Prop :=
  Z.of_nat (length (packet_data p)) = Z.min (packet_count p) 10000 ∧
  Forall complete_record (packet_data p) ∧
  protocol_map p = protocol_map (init 0).

(** The number of packets handed to [process_packet] in a session. *)
Definition is_packet (c : method) : bool :=
  match c with ProcessPacket _ _ => true | _ => false end.

Definition packets_seen (cs : list method) : Z :=
  Z.of_nat (length (List.filter is_packet cs)).

(** * Properties *)

(** ** Protocol classifier (lines 41-43) *)

Example get_protocol_name_6 : get_protocol_name (init 0) 6 = "TCP".
Proof. reflexivity. Qed.

Example get_protocol_name_47 : get_protocol_name (init 0) 47 = "OTHER(47)".
Proof. reflexivity. Qed.

Example get_protocol_name_neg : get_protocol_name (init 0) (-3) = "OTHER(-3)".
Proof. reflexivity. Qed.

(** ** Test data *)

Example tcp_run : (process_packet env0 tcp_packet w0).1 = Returns tt.
Proof. vm_compute. reflexivity. Qed.

Example tcp_run_count : packet_count (self (process_packet env0 tcp_packet w0).2) = 1.
Proof. vm_compute. reflexivity. Qed.

Example tcp_run_proto : 
  (λ r, r !! "protocol") <$> packet_data (self (process_packet env0 tcp_packet w0).2) = [Some (VStr "TCP")].
Proof. vm_compute. reflexivity. Qed.

(** ** Protocol classifier *)

Lemma string_snoc_inj (a : Ascii.ascii) (s1 s2 : string) :
  s1 +:+ String a "" = s2 +:+ String a "" → s1 = s2.
Proof.
  revert s2. induction s1 as [|c s1 IH]; intros [|d s2] H; simpl in H.
  - reflexivity.
  - injection H as _ H. destruct s2; discriminate.
  - injection H as _ H. destruct s1; discriminate.
  - injection H as -> H. f_equal. by apply IH.
Qed.

Lemma other_label_inj (n m : Z) :
  "OTHER(" +:+ pretty n +:+ ")" = "OTHER(" +:+ pretty m +:+ ")" → n = m.
Proof.
  intros H. apply (inj (String.app "OTHER(")) in H.
  apply string_snoc_inj in H. by apply (inj pretty) in H.
Qed.

Lemma protocol_map_unknown (n : Z) :
  n ≠ 1 → n ≠ 6 → n ≠ 17 → protocol_map (init 0) !! n = None.
Proof. intros. simpl. by simplify_map_eq. Qed.

(** C5: on a processor whose [protocol_map] is the one [__init__] builds,
    [get_protocol_name] maps 1, 6 and 17 to ICMP, TCP and UDP, maps every
    other integer n to the label OTHER(n) with n in decimal, and gives
    distinct labels to distinct integers outside 1, 6, 17. *)
Theorem get_protocol_name_classifier (p : PacketProcessor)
    (Hmap : protocol_map p = protocol_map (init 0)) :
  get_protocol_name p 1 = "ICMP" ∧
  get_protocol_name p 6 = "TCP" ∧
  get_protocol_name p 17 = "UDP" ∧
  (∀ n, n ≠ 1 → n ≠ 6 → n ≠ 17 →
     get_protocol_name p n = "OTHER(" +:+ pretty n +:+ ")") ∧
  (∀ n m, n ≠ 1 → n ≠ 6 → n ≠ 17 → m ≠ 1 → m ≠ 6 → m ≠ 17 → n ≠ m →
     get_protocol_name p n ≠ get_protocol_name p m).
Proof.
  assert (Hother : ∀ n, n ≠ 1 → n ≠ 6 → n ≠ 17 →
            get_protocol_name p n = "OTHER(" +:+ pretty n +:+ ")").
  { intros n ???. unfold get_protocol_name.
    by rewrite Hmap, protocol_map_unknown. }
  unfold get_protocol_name at 1 2 3. rewrite Hmap.
  repeat split; try done.
  intros n m ?????? Hne Heq. apply Hne.
  rewrite !Hother in Heq by done. by apply other_label_inj.
Qed.

Lemma get_protocol_name_classifier_witness :
  get_protocol_name (init 0) 1 = "ICMP" ∧
  get_protocol_name (init 0) 47 = "OTHER(47)" ∧
  get_protocol_name (init 0) 47 ≠ get_protocol_name (init 0) (-47).
Proof.
  destruct (get_protocol_name_classifier (init 0) eq_refl)
    as (H1 & _ & _ & Hother & Hinj).
  split; [exact H1|]. split; [apply Hother; lia | apply Hinj; lia].
Defined.

(** ** Stage equations

    Each stage of the pipeline is summarised by the value it returns and
    the events it adds; the summaries below are proved equal to the
    monadic code above and are what the properties are stated with. *)

Lemma add_events_nil w : add_events [] w = w.
Proof. destruct w. unfold add_events. simpl. by rewrite app_nil_r. Qed.

Lemma add_events_app evs1 evs2 w :
  add_events evs2 (add_events evs1 w) = add_events (evs1 ++ evs2) w.
Proof. unfold add_events. simpl. by rewrite app_assoc. Qed.

Lemma bind_returns {A B} (m : M A) (k : A → M B) w a w' :
  m w = (Returns a, w') → (m ≫= k) w = k a w'.
Proof. intros H. unfold mbind, M_bind, bind. by rewrite H. Qed.

Lemma bind_raises {A B} (m : M A) (k : A → M B) w e w' :
  m w = (Raises e, w') → (m ≫= k) w = (Raises e, w').
Proof. intros H. unfold mbind, M_bind, bind. by rewrite H. Qed.

Lemma IP_in_true packet :
  IP_in packet = true ↔ ∃ h, first_IP (layers packet) = Some h.
Proof. unfold IP_in. rewrite bool_decide_eq_true. reflexivity. Qed.

Lemma IP_in_false packet :
  IP_in packet = false ↔ first_IP (layers packet) = None.
Proof.
  unfold IP_in. rewrite bool_decide_eq_false, <- eq_None_not_Some. reflexivity.
Qed.

Lemma base_info_eq env packet h w :
  first_IP (layers packet) = Some h →
  base_info env packet w = (Returns (base_dict env (self w) h packet), w).
Proof.
  intros H. unfold base_info, getitem_IP. rewrite H. reflexivity.
Qed.

Lemma add_transport_eq packet info w :
  add_transport packet info w = (Returns (transport_dict packet info), w).
Proof.
  unfold add_transport, transport_dict, TCP_in, UDP_in, getitem_TCP, getitem_UDP.
  destruct (first_TCP (layers packet)) as [t|]; [reflexivity|].
  destruct (first_UDP (layers packet)) as [u|]; reflexivity.
Qed.

Lemma add_geo_eq env packet h info w :
  first_IP (layers packet) = Some h →
  add_geo env packet info w =
    (Returns (geo_dict (geocode env (ip_src h)) info),
     add_events (geo_log (geocode env (ip_src h))) w).
Proof.
  intros H. unfold add_geo, try_except, getitem_IP. rewrite H.
  unfold mbind, M_bind, bind, call, mret, M_ret, ret. simpl.
  destruct (geocode env (ip_src h)) as [[loc|]|e]; simpl;
    rewrite ?add_events_nil; reflexivity.
Qed.

Lemma check_rules_cons_returns info i cond message rest b w :
  cond info = Returns b →
  check_rules info i ((cond, message) :: rest) w =
    check_rules info (S i) rest (add_events (rule_events info i (cond, message)) w).
Proof.
  intros H. simpl.
  unfold mbind, M_bind, bind, emit, call, st_warning, mret, M_ret, ret, rule_events.
  simpl. rewrite H. destruct b; simpl.
  - f_equal. unfold add_events. simpl. by rewrite <- app_assoc.
  - reflexivity.
Qed.

Lemma check_rules_cons_raises info i cond message rest e w :
  cond info = Raises e →
  check_rules info i ((cond, message) :: rest) w =
    (Raises e, add_events [Called i] w).
Proof.
  intros H. simpl.
  unfold mbind, M_bind, bind, emit, call. simpl. by rewrite H.
Qed.

Lemma check_rules_app info pre : ∀ i post w,
  Forall (returns_on info) pre →
  check_rules info i (pre ++ post) w =
    check_rules info (i + length pre) post (add_events (rules_events info i pre) w).
Proof.
  induction pre as [|[cond message] pre IH]; intros i post w Hpre.
  - simpl. by rewrite Nat.add_0_r, add_events_nil.
  - apply Forall_cons in Hpre as [[b Hb] Hpre]. simpl in Hb.
    rewrite <- app_comm_cons, (check_rules_cons_returns _ _ _ _ _ b) by done.
    rewrite IH by done. simpl length.
    rewrite add_events_app. by replace (S i + length pre)%nat with (i + S (length pre))%nat by lia.
Qed.

Lemma check_rules_all_return info rules i w :
  Forall (returns_on info) rules →
  check_rules info i rules w = (Returns tt, add_events (rules_events info i rules) w).
Proof.
  intros H. rewrite <- (app_nil_r rules) at 1.
  by rewrite check_rules_app.
Qed.

(** The loop stops at the first rule whose condition raises. *)
Lemma check_rules_first_raise info pre cond message post e i w :
  Forall (returns_on info) pre →
  cond info = Raises e →
  check_rules info i (pre ++ (cond, message) :: post) w =
    (Raises e, add_events (rules_events info i pre ++ [Called (i + length pre)]) w).
Proof.
  intros Hpre He. rewrite check_rules_app by done.
  rewrite (check_rules_cons_raises _ _ _ _ _ e) by done.
  by rewrite add_events_app.
Qed.

Lemma append_record_eq info w :
  append_record info w = (Returns tt, set_self (stored info (self w)) w).
Proof.
  unfold append_record, stored, evict, pop_front.
  unfold mbind, M_bind, bind, modify_self, get_self. simpl.
  case_bool_decide; [|reflexivity].
  destruct (packet_data (self w) ++ [info]) as [|x rest] eqn:E.
  - by destruct (packet_data (self w)).
  - reflexivity.
Qed.

(** ** The pipeline as a whole *)

Lemma process_packet_no_IP env packet w :
  first_IP (layers packet) = None → process_packet env packet w = (Returns tt, w).
Proof.
  intros H. apply IP_in_false in H. unfold process_packet, try_except.
  by rewrite H.
Qed.

Lemma process_packet_IP env packet h w :
  first_IP (layers packet) = Some h →
  process_packet env packet w =
    let info := built_record env (self w) h packet in
    match check_alerts info (add_events (geo_log (geocode env (ip_src h))) w) with
    | (Returns _, w') => (Returns tt, set_self (stored info (self w')) w')
    | (Raises e, w') => (Returns tt, add_events [processing_error e] w')
    end.
Proof.
  intros H. unfold process_packet, try_except, with_lock.
  rewrite (proj2 (IP_in_true packet)) by eauto.
  rewrite (bind_returns _ _ _ _ _ (base_info_eq env packet h w H)).
  rewrite (bind_returns _ _ _ _ _ (add_transport_eq packet _ w)).
  rewrite (bind_returns _ _ _ _ _ (add_geo_eq env packet h _ w H)).
  fold (built_record env (self w) h packet). cbv zeta.
  destruct (check_alerts _ _) as [[[]|e] w'] eqn:E.
  - rewrite (bind_returns _ _ _ _ _ E). by rewrite append_record_eq.
  - by rewrite (bind_raises _ _ _ _ _ E).
Qed.

Lemma check_alerts_eq info w :
  check_alerts info w = check_rules info 0 (alerts (self w)) w.
Proof. reflexivity. Qed.

(** A rule list either returns on every rule or has a first raising rule. *)
Lemma rules_return_or_raise info (rules : list (condition * string)) :
  Forall (returns_on info) rules ∨
  ∃ pre cond message post e,
    rules = pre ++ (cond, message) :: post ∧
    Forall (returns_on info) pre ∧ cond info = Raises e.
Proof.
  induction rules as [|[cond message] rules IH]; [by left|].
  destruct (cond info) as [b|e] eqn:E.
  - destruct IH as [IH|(pre & c & m & post & e & -> & Hpre & He)].
    + left. constructor; [by exists b | done].
    + right. exists ((cond, message) :: pre), c, m, post, e.
      split_and!; [done| |done]. constructor; [by exists b | done].
  - right. by exists [], cond, message, rules, e.
Qed.

(** Accepted packet: every condition returns, the record is stored. *)
Lemma process_packet_stored env packet h w :
  first_IP (layers packet) = Some h →
  Forall (returns_on (built_record env (self w) h packet)) (alerts (self w)) →
  process_packet env packet w =
    (Returns tt,
     set_self (stored (built_record env (self w) h packet) (self w))
       (add_events (geo_log (geocode env (ip_src h)) ++
                    rules_events (built_record env (self w) h packet) 0 (alerts (self w))) w)).
Proof.
  intros H Hall. rewrite (process_packet_IP _ _ h) by done. cbv zeta.
  rewrite check_alerts_eq. simpl self.
  rewrite check_rules_all_return by done. by rewrite add_events_app.
Qed.

(** Failing condition: the loop is left at the first raise, the outer
    handler logs it, and the processor is as before. *)
Lemma process_packet_dropped env packet h w pre cond message post e :
  first_IP (layers packet) = Some h →
  alerts (self w) = pre ++ (cond, message) :: post →
  Forall (returns_on (built_record env (self w) h packet)) pre →
  cond (built_record env (self w) h packet) = Raises e →
  process_packet env packet w =
    (Returns tt,
     add_events (geo_log (geocode env (ip_src h)) ++
                 rules_events (built_record env (self w) h packet) 0 pre ++
                 [Called (length pre); processing_error e]) w).
Proof.
  intros H Halerts Hpre He. rewrite (process_packet_IP _ _ h) by done. cbv zeta.
  rewrite check_alerts_eq. simpl self. rewrite Halerts.
  rewrite (check_rules_first_raise _ _ _ _ _ e) by done.
  rewrite !add_events_app. simpl. by rewrite <- !app_assoc.
Qed.

(** ** Packets without a network-layer header *)

(** C6: a packet that carries no IP header produces no record: the call
    returns with the retained history and the counter of packets unchanged
    (the whole world is as before; nothing is logged either). *)
Theorem process_packet_without_IP (env : environment) (packet : Packet) (w : World) :
  IP_in packet = false →
  (process_packet env packet w).1 = Returns tt ∧
  packet_data (self (process_packet env packet w).2) = packet_data (self w) ∧
  packet_count (self (process_packet env packet w).2) = packet_count (self w) ∧
  (process_packet env packet w).2 = w.
Proof.
  intros H. apply IP_in_false in H.
  by rewrite (process_packet_no_IP env packet w H).
Qed.

Lemma process_packet_without_IP_witness :
  IP_in arp_packet = false ∧
  packet_data (self (process_packet env0 arp_packet w0).2) = [] ∧
  packet_count (self (process_packet env0 arp_packet w0).2) = 0.
Proof.
  split; [reflexivity|].
  destruct (process_packet_without_IP env0 arp_packet w0 eq_refl) as (_ & Hd & Hc & _).
  split; [exact Hd | exact Hc].
Defined.

(** ** Transport fields of the record *)

Lemma geo_dict_other_key (answer : outcome (option Location)) (info : packet_info) (k : string) :
  k ≠ "latitude" → k ≠ "longitude" → geo_dict answer info !! k = info !! k.
Proof.
  intros H1 H2. destruct answer as [[loc|]|e]; simpl; [|done..].
  by rewrite !lookup_insert_ne.
Qed.

Lemma TCP_in_true packet :
  TCP_in packet = true ↔ ∃ t, first_TCP (layers packet) = Some t.
Proof. unfold TCP_in. rewrite bool_decide_eq_true. reflexivity. Qed.

Lemma UDP_in_true packet :
  UDP_in packet = true ↔ ∃ u, first_UDP (layers packet) = Some u.
Proof. unfold UDP_in. rewrite bool_decide_eq_true. reflexivity. Qed.

(** C4: for a packet with an IP header, the record that leaves the builder
    and the enrichment (lines 60-91) has the TCP fields [src_port],
    [dst_port] and [tcp_flags] of the packet's TCP header when there is
    one; else the two port fields of its UDP header and no [tcp_flags] when
    there is one; else none of the three.  So [tcp_flags] is present
    exactly for TCP packets and the ports exactly for TCP or UDP packets. *)
Theorem record_transport_fields (env : environment) (packet : Packet) (w : World) :
  IP_in packet = true →
  ∃ info w',
    (info ← base_info env packet;
     info ← add_transport packet info;
     add_geo env packet info) w = (Returns info, w') ∧
    (∀ t, first_TCP (layers packet) = Some t →
       info !! "src_port" = Some (VInt (tcp_sport t)) ∧
       info !! "dst_port" = Some (VInt (tcp_dport t)) ∧
       info !! "tcp_flags" = Some (VFlags (tcp_flagsval t))) ∧
    (TCP_in packet = false → ∀ u, first_UDP (layers packet) = Some u →
       info !! "src_port" = Some (VInt (udp_sport u)) ∧
       info !! "dst_port" = Some (VInt (udp_dport u)) ∧
       info !! "tcp_flags" = None) ∧
    (TCP_in packet = false → UDP_in packet = false →
       info !! "src_port" = None ∧
       info !! "dst_port" = None ∧
       info !! "tcp_flags" = None) ∧
    (is_Some (info !! "tcp_flags") ↔ TCP_in packet = true) ∧
    (is_Some (info !! "src_port") ↔ TCP_in packet = true ∨ UDP_in packet = true) ∧
    (is_Some (info !! "dst_port") ↔ TCP_in packet = true ∨ UDP_in packet = true).
Proof.
  intros H. apply IP_in_true in H as [h H].
  eexists _, _. split.
  { rewrite (bind_returns _ _ _ _ _ (base_info_eq env packet h w H)).
    rewrite (bind_returns _ _ _ _ _ (add_transport_eq packet _ w)).
    apply (add_geo_eq env packet h _ w H). }
  rewrite !geo_dict_other_key by done.
  unfold transport_dict, base_dict, TCP_in, UDP_in.
  destruct (first_TCP (layers packet)) as [t|] eqn:Et;
    [|destruct (first_UDP (layers packet)) as [u|] eqn:Eu];
    simplify_map_eq; rewrite ?bool_decide_eq_true;
    split_and!; try done; try (intros; simplify_eq; done);
    split; intros Hiff; eauto;
    solve [ by destruct Hiff | by apply is_Some_None in Hiff ].
Qed.

Lemma record_transport_fields_witness :
  IP_in tcp_packet = true ∧
  ∃ info w',
    (info ← base_info env0 tcp_packet;
     info ← add_transport tcp_packet info;
     add_geo env0 tcp_packet info) w0 = (Returns info, w') ∧
    info !! "src_port" = Some (VInt 1234) ∧
    info !! "dst_port" = Some (VInt 80) ∧
    info !! "tcp_flags" = Some (VFlags 2).
Proof.
  split; [reflexivity|].
  destruct (record_transport_fields env0 tcp_packet w0 eq_refl)
    as (info & w' & Hrun & Htcp & _).
  exists info, w'. split; [exact Hrun|]. exact (Htcp _ eq_refl).
Defined.

(** ** No exception leaves [process_packet] *)

(** What the call does to the world in each of its three ways through the
    body: no IP header, a stored record, a raise in the alert check. *)
Lemma process_packet_cases env packet w :
  process_packet env packet w = (Returns tt, w) ∧ first_IP (layers packet) = None
  ∨ (∃ h,
      first_IP (layers packet) = Some h ∧
      Forall (returns_on (built_record env (self w) h packet)) (alerts (self w)) ∧
      process_packet env packet w =
        (Returns tt,
         set_self (stored (built_record env (self w) h packet) (self w))
           (add_events (geo_log (geocode env (ip_src h)) ++
              rules_events (built_record env (self w) h packet) 0 (alerts (self w))) w)))
  ∨ (∃ h pre cond message post e,
      first_IP (layers packet) = Some h ∧
      alerts (self w) = pre ++ (cond, message) :: post ∧
      Forall (returns_on (built_record env (self w) h packet)) pre ∧
      cond (built_record env (self w) h packet) = Raises e ∧
      process_packet env packet w =
        (Returns tt,
         add_events (geo_log (geocode env (ip_src h)) ++
            rules_events (built_record env (self w) h packet) 0 pre ++
            [Called (length pre); processing_error e]) w)).
Proof.
  destruct (first_IP (layers packet)) as [h|] eqn:H.
  - right.
    destruct (rules_return_or_raise (built_record env (self w) h packet) (alerts (self w)))
      as [Hall|(pre & cond & message & post & e & Halerts & Hpre & He)].
    + left. exists h. split_and!; [done..|]. by apply process_packet_stored.
    + right. exists h, pre, cond, message, post, e. split_and!; [done..|].
      by apply (process_packet_dropped _ _ _ _ _ cond message post).
  - left. split; [|done]. by apply process_packet_no_IP.
Qed.

(** C9: whatever the packet (any stack of layers, also none), whatever the
    geocoder answers and whatever the registered conditions do,
    [process_packet] returns normally; and when the body of its [try]
    raises [e], the world is the one the body left with the error message
    for [e] added to the log. *)
Theorem process_packet_never_raises (env : environment) (packet : Packet) (w : World) :
  (process_packet env packet w).1 = Returns tt ∧
  ∀ e w1,
    (if IP_in packet then
       with_lock
         (info ← base_info env packet;
          info ← add_transport packet info;
          info ← add_geo env packet info;
          check_alerts info;;
          append_record info)
     else mret tt) w = (Raises e, w1) →
    process_packet env packet w =
      (Returns tt, add_events [LogError ("Error processing packet: " +:+ exn_str e)] w1).
Proof.
  split.
  - destruct (process_packet_cases env packet w)
      as [[-> _]|[(h & _ & _ & ->)|(h & pre & c & m & post & e & _ & _ & _ & _ & ->)]];
      reflexivity.
  - intros e w1 Hbody. unfold process_packet, try_except. by rewrite Hbody.
Qed.

Lemma process_packet_never_raises_witness :
  (process_packet env0 tcp_packet w_broken).1 = Returns tt ∧
  trace (process_packet env0 tcp_packet w_broken).2 =
    [Called 0; LogError "Error processing packet: division by zero"].
Proof.
  destruct (process_packet_never_raises env0 tcp_packet w_broken) as [H1 H2].
  split; [exact H1|].
  rewrite (H2 (Exn "ZeroDivisionError" "division by zero")
              (add_events [Called 0] w_broken)); reflexivity.
Defined.

(** ** Atomicity of the update *)

(** C10: a call of [process_packet] either stores exactly one record (the
    history becomes the old one with the record at its end, less the oldest
    entry when that exceeds 10000, and the counter grows by one) or leaves
    history and counter as they were; when a condition raises in the alert
    check, which runs after the record is built and before it is stored,
    the second case holds. *)
Theorem process_packet_atomic (env : environment) (packet : Packet) (w : World) :
  let w' := (process_packet env packet w).2 in
  ((∃ info,
      packet_data (self w') = evict (packet_data (self w) ++ [info]) ∧
      packet_count (self w') = packet_count (self w) + 1)
   ∨ (packet_data (self w') = packet_data (self w) ∧
      packet_count (self w') = packet_count (self w))) ∧
  (∀ h info w1 e,
     first_IP (layers packet) = Some h →
     (info ← base_info env packet;
      info ← add_transport packet info;
      add_geo env packet info) w = (Returns info, w1) →
     (check_alerts info w1).1 = Raises e →
     packet_data (self w') = packet_data (self w) ∧
     packet_count (self w') = packet_count (self w)).
Proof.
  cbv zeta. split.
  - destruct (process_packet_cases env packet w)
      as [[-> _]|[(h & _ & _ & ->)|(h & pre & c & m & post & e & _ & _ & _ & _ & ->)]].
    + by right.
    + left. by eexists.
    + by right.
  - intros h info w1 e H Hbuild Hcheck.
    rewrite (bind_returns _ _ _ _ _ (base_info_eq env packet h w H)) in Hbuild.
    rewrite (bind_returns _ _ _ _ _ (add_transport_eq packet _ w)) in Hbuild.
    rewrite (add_geo_eq env packet h _ w H) in Hbuild.
    injection Hbuild as <- <-.
    rewrite (process_packet_IP env packet h w H). cbv zeta.
    fold (built_record env (self w) h packet) in Hcheck.
    destruct (check_alerts _ _) as [[[]|e'] w2] eqn:E; [done|].
    simpl. rewrite check_alerts_eq in E. simpl self in E.
    destruct (rules_return_or_raise (built_record env (self w) h packet) (alerts (self w)))
      as [Hall|(pre & c & m & post & e2 & Halerts & Hpre & He)].
    + by rewrite check_rules_all_return in E.
    + rewrite Halerts, (check_rules_first_raise _ _ _ _ _ e2) in E by done.
      by injection E as _ <-.
Qed.

Lemma process_packet_atomic_witness :
  packet_data (self (process_packet env0 tcp_packet w_broken).2) = [] ∧
  packet_count (self (process_packet env0 tcp_packet w_broken).2) = 0.
Proof.
  destruct (process_packet_atomic env0 tcp_packet w_broken) as [_ H].
  refine (H _ _ _ (Exn "ZeroDivisionError" "division by zero") eq_refl eq_refl _).
  reflexivity.
Defined.

(** ** Alert evaluation *)

Lemma calls_app evs1 evs2 : calls (evs1 ++ evs2) = calls evs1 ++ calls evs2.
Proof. apply omap_app. Qed.

Lemma warnings_app evs1 evs2 : warnings (evs1 ++ evs2) = warnings evs1 ++ warnings evs2.
Proof. apply omap_app. Qed.

Lemma errors_app evs1 evs2 : errors (evs1 ++ evs2) = errors evs1 ++ errors evs2.
Proof. apply omap_app. Qed.

Lemma calls_rules_events info rules : ∀ i,
  calls (rules_events info i rules) = seq i (length rules).
Proof.
  induction rules as [|[cond message] rules IH]; intros i; [done|].
  simpl. rewrite calls_app, IH. unfold rule_events. simpl.
  by destruct (cond info) as [[]|].
Qed.

Lemma warnings_rules_events info rules : ∀ i,
  warnings (rules_events info i rules) =
    (λ rule, "Alert: " +:+ rule.2) <$> filter (holds_on info) rules.
Proof.
  induction rules as [|[cond message] rules IH]; intros i; [done|].
  simpl. rewrite warnings_app, IH, filter_cons. unfold rule_events.
  destruct (decide (holds_on info (cond, message))) as [Hyes|Hno];
    unfold holds_on in *; simpl in *.
  - by rewrite Hyes.
  - by destruct (cond info) as [[]|].
Qed.

Lemma errors_rules_events info rules : ∀ i, errors (rules_events info i rules) = [].
Proof.
  induction rules as [|[cond message] rules IH]; intros i; [done|].
  simpl. rewrite errors_app, IH. unfold rule_events. simpl.
  by destruct (cond info) as [[]|].
Qed.

Lemma last_evict (data : list packet_info) (info : packet_info) :
  last (evict (data ++ [info])) = Some info.
Proof.
  unfold evict. case_bool_decide as Hlen; [|apply last_snoc].
  destruct data as [|x data]; simpl in *; [lia|]. apply last_snoc.
Qed.

(** C8, refuted as stated for every rule list: with a rule whose condition
    raises registered before one that always holds, [check_alerts] calls
    the first condition only; the second is never called and its warning
    is not shown, although its condition holds of the record. *)
Lemma raising_condition_ends_evaluation :
  ¬ evaluates_every_rule tcp_info w_broken.
Proof.
  intros [Hcalls _]. vm_compute in Hcalls. discriminate.
Qed.

(** C8, as the code has it: when the registered conditions return on the
    record, [check_alerts]
    calls each of them once, in registration order, shows one warning for
    each rule whose condition holds (in that order, right after its call)
    and nothing else, and changes neither the processor nor the record: the
    dict [process_packet] stores is the one the conditions were given.  For
    the rule of [main], the warning appears exactly when the record's
    protocol is TCP and its size exceeds 1000. *)
Theorem check_alerts_each_rule_once (info : packet_info) (w : World) :
  Forall (returns_on info) (alerts (self w)) →
  ∃ evs,
    check_alerts info w = (Returns tt, add_events evs w) ∧
    evs = rules_events info 0 (alerts (self w)) ∧
    calls evs = seq 0 (length (alerts (self w))) ∧
    warnings evs = (λ rule, "Alert: " +:+ rule.2) <$> filter (holds_on info) (alerts (self w)) ∧
    (∀ env packet h,
       first_IP (layers packet) = Some h →
       info = built_record env (self w) h packet →
       last (packet_data (self (process_packet env packet w).2)) = Some info) ∧
    (∀ message proto n,
       alerts (self w) = [(large_tcp, message)] →
       info !! "protocol" = Some (VStr proto) →
       info !! "size" = Some (VInt n) →
       warnings evs =
         if bool_decide (proto = "TCP" ∧ 1000 < n) then ["Alert: " +:+ message] else []).
Proof.
  intros Hall. eexists. split; [|split; [reflexivity|]].
  { rewrite check_alerts_eq. by apply check_rules_all_return. }
  split; [apply calls_rules_events|]. split; [apply warnings_rules_events|]. split.
  - intros env packet h H ->.
    rewrite (process_packet_stored env packet h w H Hall). simpl. apply last_evict.
  - intros message proto n -> Hproto Hsize. simpl.
    unfold rule_events, large_tcp. simpl. rewrite Hproto, Hsize.
    destruct (decide (proto = "TCP")) as [->|Hproto'].
    + rewrite (bool_decide_eq_true_2 (VStr "TCP" = VStr "TCP")) by done.
      destruct (decide (1000 < n)) as [Hn|Hn].
      * by rewrite !bool_decide_eq_true_2 by done.
      * rewrite (bool_decide_eq_false_2 (1000 < n)) by done.
        by rewrite bool_decide_eq_false_2 by (by intros [_ ?]).
    + rewrite (bool_decide_eq_false_2 (VStr proto = VStr "TCP")) by congruence.
      by rewrite bool_decide_eq_false_2 by (by intros [? _]).
Qed.

Lemma check_alerts_each_rule_once_witness :
  Forall (returns_on tcp_info) (alerts (self w_main)) ∧
  ∃ evs,
    check_alerts tcp_info w_main = (Returns tt, add_events evs w_main) ∧
    calls evs = [0%nat] ∧
    warnings evs = ["Alert: Large TCP packet detected"].
Proof.
  assert (H : Forall (returns_on tcp_info) (alerts (self w_main))).
  { repeat constructor. exists true. reflexivity. }
  split; [exact H|].
  destruct (check_alerts_each_rule_once tcp_info w_main H)
    as (evs & Hrun & _ & Hcalls & _ & _ & Hmain).
  exists evs. split; [exact Hrun|]. split; [exact Hcalls|].
  exact (Hmain large_tcp_message "TCP" 1500 eq_refl eq_refl eq_refl).
Defined.

(** ** A condition that raises *)

(** The stages that build the record, as [process_packet] chains them. *)
Lemma build_stages_eq env packet h w info w1 :
  first_IP (layers packet) = Some h →
  (info ← base_info env packet;
   info ← add_transport packet info;
   add_geo env packet info) w = (Returns info, w1) →
  info = built_record env (self w) h packet ∧
  w1 = add_events (geo_log (geocode env (ip_src h))) w.
Proof.
  intros H Hbuild.
  rewrite (bind_returns _ _ _ _ _ (base_info_eq env packet h w H)) in Hbuild.
  rewrite (bind_returns _ _ _ _ _ (add_transport_eq packet _ w)) in Hbuild.
  rewrite (add_geo_eq env packet h _ w H) in Hbuild.
  by injection Hbuild as <- <-.
Qed.

Lemma new_events_add_events evs w : new_events w (add_events evs w) = evs.
Proof. unfold new_events, add_events. simpl. by rewrite drop_app_length. Qed.

(** C2, refuted as stated: with a raising rule registered before another
    one, the packet's record is neither stored nor counted and the second
    condition is never called. *)
Lemma condition_failure_not_isolated :
  ¬ isolates_condition_failure env0 tcp_packet w_broken.
Proof.
  intros Hiso.
  destruct (Hiso tcp_info (add_events [] w_broken) eq_refl eq_refl) as (_ & _ & _ & Hcount).
  - apply Exists_cons_hd. by exists (Exn "ZeroDivisionError" "division by zero").
  - vm_compute in Hcount. discriminate.
Qed.

(** C2, as the code has it: when the conditions registered before some rule
    return on the record and that rule's condition raises [e], the alert
    loop ends there: the conditions after it are not called, the exception
    reaches the handler of [process_packet], which logs it, the call
    returns, and the record is dropped: the processor, with its history and
    its counter, is as before the call. *)
Theorem condition_failure_drops_record (env : environment) (packet : Packet)
    (w w1 : World) (info : packet_info)
    (pre post : list (condition * string)) (cond : condition) (message : string) (e : exn) :
  IP_in packet = true →
  (info ← base_info env packet;
   info ← add_transport packet info;
   add_geo env packet info) w = (Returns info, w1) →
  alerts (self w) = pre ++ (cond, message) :: post →
  Forall (returns_on info) pre →
  cond info = Raises e →
  let evs := rules_events info 0 pre ++
             [Called (length pre);
              LogError ("Error processing packet: " +:+ exn_str e)] in
  process_packet env packet w = (Returns tt, add_events evs w1) ∧
  calls evs = seq 0 (S (length pre)) ∧
  errors evs = ["Error processing packet: " +:+ exn_str e] ∧
  warnings evs = (λ rule, "Alert: " +:+ rule.2) <$> filter (holds_on info) pre ∧
  self (process_packet env packet w).2 = self w ∧
  packet_data (self (process_packet env packet w).2) = packet_data (self w) ∧
  packet_count (self (process_packet env packet w).2) = packet_count (self w).
Proof.
  intros HIP Hbuild Halerts Hpre He. cbv zeta.
  apply IP_in_true in HIP as [h H].
  destruct (build_stages_eq env packet h w info w1 H Hbuild) as [-> ->].
  rewrite (process_packet_dropped env packet h w pre cond message post e) by done.
  rewrite add_events_app. split; [done|].
  rewrite calls_app, errors_app, warnings_app.
  rewrite calls_rules_events, errors_rules_events, warnings_rules_events.
  rewrite seq_S. simpl. by rewrite app_nil_r.
Qed.

Lemma condition_failure_drops_record_witness :
  process_packet env0 tcp_packet w_broken =
    (Returns tt,
     add_events [Called 0; LogError "Error processing packet: division by zero"] w_broken) ∧
  packet_count (self (process_packet env0 tcp_packet w_broken).2) = 0.
Proof.
  destruct (condition_failure_drops_record env0 tcp_packet w_broken
              (add_events [] w_broken) tcp_info
              [] [(always, "always")] broken_rule "broken"
              (Exn "ZeroDivisionError" "division by zero")
              eq_refl eq_refl eq_refl (Forall_nil_2 _) eq_refl)
    as (Hrun & _ & _ & _ & _ & _ & Hcount).
  split; [exact Hrun | exact Hcount].
Defined.

(** ** Geolocation *)

(** C7, refuted as stated: a lookup that returns [None] leaves the record
    as it was but writes nothing to the log. *)
Lemma no_result_is_not_logged :
  ¬ logs_geolocation_failure env0 tcp_packet tcp_info w0.
Proof.
  intros Hlog.
  destruct (Hlog _ eq_refl) as (w' & Hrun & Herr).
  - intros loc. discriminate.
  - rewrite (add_geo_eq env0 tcp_packet _ _ w0 eq_refl) in Hrun.
    inversion Hrun; subst w'. apply Herr.
    by rewrite new_events_add_events.
Qed.

Lemma geo_dict_latitude answer (info : packet_info) :
  info !! "latitude" = None →
  (is_Some (geo_dict answer info !! "latitude") ↔ ∃ loc, answer = Returns (Some loc)).
Proof.
  intros Hnone. destruct answer as [[loc|]|e]; simpl.
  - rewrite lookup_insert_ne, lookup_insert_eq by done. split; eauto.
  - rewrite Hnone. split; [by intros ?%is_Some_None | by intros [? ?]].
  - rewrite Hnone. split; [by intros ?%is_Some_None | by intros [? ?]].
Qed.

Lemma geo_dict_longitude answer (info : packet_info) :
  info !! "longitude" = None →
  (is_Some (geo_dict answer info !! "longitude") ↔ ∃ loc, answer = Returns (Some loc)).
Proof.
  intros Hnone. destruct answer as [[loc|]|e]; simpl.
  - rewrite lookup_insert_eq. split; eauto.
  - rewrite Hnone. split; [by intros ?%is_Some_None | by intros [? ?]].
  - rewrite Hnone. split; [by intros ?%is_Some_None | by intros [? ?]].
Qed.

Lemma transport_dict_no_geo env p h packet :
  transport_dict packet (base_dict env p h packet) !! "latitude" = None ∧
  transport_dict packet (base_dict env p h packet) !! "longitude" = None.
Proof.
  unfold transport_dict, base_dict.
  destruct (first_TCP (layers packet)); [|destruct (first_UDP (layers packet))];
    by simplify_map_eq.
Qed.

(** C7, as the code has it: for a packet with an IP header, with [info0]
    the record before enrichment, the geocoder stage always returns.  The
    record carries [latitude] and [longitude] exactly when the lookup
    returned a location; when it raised or returned [None] the record is
    [info0] unchanged.  A raise is logged as "Error in geolocation: ...",
    a [None] answer logs nothing.  In every case the pipeline goes on with
    that record: the alert check, then the append. *)
Theorem geolocation_best_effort (env : environment) (packet : Packet) (h : IP)
    (w w0' : World) (info0 : packet_info) :
  first_IP (layers packet) = Some h →
  (info ← base_info env packet; add_transport packet info) w = (Returns info0, w0') →
  ∃ info evs,
    add_geo env packet info0 w0' = (Returns info, add_events evs w) ∧
    (is_Some (info !! "latitude") ↔ ∃ loc, geocode env (ip_src h) = Returns (Some loc)) ∧
    (is_Some (info !! "longitude") ↔ ∃ loc, geocode env (ip_src h) = Returns (Some loc)) ∧
    (∀ loc, geocode env (ip_src h) = Returns (Some loc) →
       info !! "latitude" = Some (VCoord (latitude loc)) ∧
       info !! "longitude" = Some (VCoord (longitude loc)) ∧ evs = []) ∧
    (geocode env (ip_src h) = Returns None → info = info0 ∧ evs = []) ∧
    (∀ e, geocode env (ip_src h) = Raises e →
       info = info0 ∧ evs = [LogError ("Error in geolocation: " +:+ exn_str e)]) ∧
    process_packet env packet w =
      try_except (check_alerts info;; append_record info)
        (λ e, logger_error ("Error processing packet: " +:+ exn_str e))
        (add_events evs w).
Proof.
  intros H Hbuild.
  rewrite (bind_returns _ _ _ _ _ (base_info_eq env packet h w H)) in Hbuild.
  rewrite (add_transport_eq packet _ w) in Hbuild.
  injection Hbuild as <- <-.
  destruct (transport_dict_no_geo env (self w) h packet) as [Hlat Hlon].
  eexists _, _. split; [by apply add_geo_eq|].
  split; [by apply geo_dict_latitude|]. split; [by apply geo_dict_longitude|].
  split_and!.
  - intros loc ->. simpl. by rewrite lookup_insert_ne, !lookup_insert_eq.
  - by intros ->.
  - by intros e ->.
  - unfold process_packet, try_except, with_lock.
    rewrite (proj2 (IP_in_true packet)) by eauto.
    rewrite (bind_returns _ _ _ _ _ (base_info_eq env packet h w H)).
    rewrite (bind_returns _ _ _ _ _ (add_transport_eq packet _ w)).
    by rewrite (bind_returns _ _ _ _ _ (add_geo_eq env packet h _ w H)).
Qed.

Lemma geolocation_best_effort_witness :
  ∃ info evs,
    add_geo env_timeout tcp_packet tcp_info w0 = (Returns info, add_events evs w0) ∧
    info = tcp_info ∧
    evs = [LogError "Error in geolocation: Service timed out"].
Proof.
  destruct (geolocation_best_effort env_timeout tcp_packet
              {| ip_src := "10.0.0.1"; ip_dst := "10.0.0.2"; ip_proto := 6 |}
              w0 w0 tcp_info eq_refl)
    as (info & evs & Hrun & _ & _ & _ & _ & Hraise & _).
  - vm_compute. reflexivity.
  - exists info, evs. split; [exact Hrun|].
    exact (Hraise (Exn "GeocoderTimedOut" "Service timed out") eq_refl).
Defined.

(** ** The bounded history *)

Lemma append_all_eq records : ∀ w,
  append_all records w = (Returns tt, set_self (store_all (self w) records) w).
Proof.
  induction records as [|r records IH]; intros w; simpl.
  - by destruct w.
  - rewrite (bind_returns _ _ _ _ _ (append_record_eq r w)). by rewrite IH.
Qed.

Lemma evict_length (data : list packet_info) (r : packet_info) :
  Z.of_nat (length data) ≤ 10000 →
  Z.of_nat (length (evict (data ++ [r]))) ≤ 10000.
Proof.
  intros Hlen. unfold evict. case_bool_decide as Hover.
  - destruct data as [|x data]; simpl in *; [lia|].
    rewrite length_app in *. simpl in *. lia.
  - lia.
Qed.

Lemma store_all_data records : ∀ p,
  Z.of_nat (length (packet_data p)) ≤ 10000 →
  packet_data (store_all p records) =
    drop (length (packet_data p ++ records) - Z.to_nat 10000) (packet_data p ++ records).
Proof.
  induction records as [|r records IH]; intros p Hlen.
  - simpl. rewrite app_nil_r.
    by replace (length (packet_data p) - Z.to_nat 10000)%nat with 0%nat by lia.
  - change (store_all p (r :: records)) with (store_all (stored r p) records).
    rewrite IH by (by apply evict_length). simpl packet_data.
    unfold evict. case_bool_decide as Hover.
    + destruct (packet_data p) as [|x data]; [simpl in Hover; lia|].
      simpl tail. rewrite <- !app_assoc. simpl app. simpl length.
      rewrite length_app in Hover. simpl length in Hover, Hlen.
      replace (S (length (data ++ r :: records)) - Z.to_nat 10000)%nat
        with (S (length (data ++ r :: records) - Z.to_nat 10000))
        by (rewrite length_app; simpl; lia).
      reflexivity.
    + by rewrite <- !app_assoc.
Qed.

Lemma store_all_count records : ∀ p,
  packet_count (store_all p records) = packet_count p + Z.of_nat (length records).
Proof.
  induction records as [|r records IH]; intros p.
  - simpl. lia.
  - change (store_all p (r :: records)) with (store_all (stored r p) records).
    rewrite IH. simpl. lia.
Qed.

Lemma store_all_data_empty records p :
  packet_data p = [] →
  packet_data (store_all p records) = drop (length records - Z.to_nat 10000) records.
Proof.
  intros Hempty. rewrite store_all_data by (rewrite Hempty; cbn [length]; lia).
  rewrite Hempty. reflexivity.
Qed.

Lemma store_all_length records p :
  packet_data p = [] →
  Z.of_nat (length (packet_data (store_all p records))) =
    Z.min (Z.of_nat (length records)) 10000.
Proof.
  intros Hempty. rewrite store_all_data_empty, length_drop by done. lia.
Qed.

Lemma append_all_returns records w : (append_all records w).1 = Returns tt.
Proof. by rewrite append_all_eq. Qed.

Lemma append_all_self records w :
  self (append_all records w).2 = store_all (self w) records.
Proof. by rewrite append_all_eq. Qed.

(** C1: records appended to a new processor's history.  After every
    append the history holds at most 10000 records; after all of them it is
    the list of the records fed with the first [N - 10000] removed (nothing
    removed for [N] up to 10000), that is the last 10000 in arrival order,
    the oldest evicted first, and its length is [min N 10000].  Fed the
    records with ids 1 to 10050, it holds the ids 51 to 10050 in ascending
    order. *)
Theorem append_keeps_last_10000 (t : Z) (tr : list event) (records : list packet_info) :
  let w := {| self := init t; trace := tr |} in
  (append_all records w).1 = Returns tt ∧
  (∀ k, Z.of_nat (length (packet_data (self (append_all (take k records) w).2))) ≤ 10000) ∧
  packet_data (self (append_all records w).2) =
    drop (length records - Z.to_nat 10000) records ∧
  Z.of_nat (length (packet_data (self (append_all records w).2))) =
    Z.min (Z.of_nat (length records)) 10000 ∧
  packet_data (self (append_all (synthetic <$> seqZ 1 10050) w).2) =
    synthetic <$> seqZ 51 10000.
Proof.
  cbv zeta. rewrite append_all_returns, !append_all_self. cbn [self].
  split; [reflexivity|]. split_and!.
  - intros k. rewrite append_all_self. cbn [self].
    rewrite store_all_length by reflexivity. lia.
  - by apply store_all_data_empty.
  - by apply store_all_length.
  - rewrite store_all_data_empty by reflexivity.
    rewrite length_fmap, length_seqZ.
    replace (Z.to_nat 10050 - Z.to_nat 10000)%nat with (Z.to_nat 50) by lia.
    rewrite <- fmap_drop. apply (f_equal (fmap synthetic)).
    replace 10050 with (50 + 10000) by lia.
    rewrite (seqZ_app 1 50 10000) by lia.
    apply drop_app_length'. by rewrite length_seqZ.
Qed.

(** ** The counter of packets *)

Lemma forallb_returns info (rules : list (condition * string)) :
  forallb (returns_b info) rules = true ↔ Forall (returns_on info) rules.
Proof.
  induction rules as [|[cond message] rules IH]; simpl.
  - split; [by constructor | done].
  - rewrite andb_true_iff, Forall_cons, IH. unfold returns_b, returns_on. simpl.
    destruct (cond info) as [b|e]; split; intros [H1 H2]; split; eauto;
      solve [ done | by destruct H1 ].
Qed.

Lemma process_packet_self env packet w :
  self (process_packet env packet w).2 =
    match stored_record (self w) (env, packet) with
    | Some info => stored info (self w)
    | None => self w
    end.
Proof.
  unfold stored_record. simpl.
  destruct (process_packet_cases env packet w)
    as [[-> H]|[(h & H & Hall & ->)|(h & pre & c & m & post & e & H & Halerts & Hpre & He & ->)]];
    rewrite H; [done| |].
  - by rewrite (proj2 (forallb_returns _ _) Hall).
  - destruct (forallb _ _) eqn:E; [|done].
    apply forallb_returns in E. rewrite Halerts in E.
    apply Forall_app in E as [_ E]. apply Forall_cons in E as [[b Hb] _].
    simpl in Hb. congruence.
Qed.

Lemma process_packet_returns env packet w : (process_packet env packet w).1 = Returns tt.
Proof.
  destruct (process_packet_cases env packet w)
    as [[-> _]|[(h & _ & _ & ->)|(h & pre & c & m & post & e & _ & _ & _ & _ & ->)]];
    reflexivity.
Qed.

(** Storing a record changes neither the rules nor what later records are
    built from. *)
Lemma stored_record_stored info p input :
  stored_record (stored info p) input = stored_record p input.
Proof. reflexivity. Qed.

Lemma capture_eq inputs : ∀ w,
  (capture inputs w).1 = Returns tt ∧
  self (capture inputs w).2 =
    store_all (self w) (omap (stored_record (self w)) inputs).
Proof.
  induction inputs as [|[env packet] inputs IH]; intros w; [done|].
  simpl capture.
  pose proof (process_packet_returns env packet w) as Hret.
  pose proof (process_packet_self env packet w) as Hself.
  destruct (process_packet env packet w) as [r w1] eqn:E. simpl in Hret, Hself.
  subst r. rewrite (bind_returns _ _ _ _ _ E).
  destruct (IH w1) as [IH1 IH2]. split; [done|].
  rewrite IH2, Hself. simpl omap.
  destruct (stored_record (self w) (env, packet)) as [info|]; [|done].
  simpl. unfold store_all. f_equal.
Qed.

(** C3: on a new processor, with any rules registered, after the capture
    loop has handled a list of packets the counter equals the number [N] of
    records that were stored (packets with an IP header on which no
    condition raised), whatever was evicted since; the history holds the
    last [min N 10000] of them, so above 10000 the counter exceeds 10000
    and differs from the length of the history.  The same holds for records
    appended directly. *)
Theorem packet_count_counts_every_record (t : Z) (rules : list (condition * string))
    (tr : list event) (inputs : list (environment * Packet)) :
  let w := {| self := set_alerts rules (init t); trace := tr |} in
  let records := omap (stored_record (self w)) inputs in
  let w' := (capture inputs w).2 in
  (capture inputs w).1 = Returns tt ∧
  packet_count (self w') = Z.of_nat (length records) ∧
  packet_data (self w') = drop (length records - Z.to_nat 10000) records ∧
  Z.of_nat (length (packet_data (self w'))) = Z.min (Z.of_nat (length records)) 10000 ∧
  (10000 < Z.of_nat (length records) →
     Z.of_nat (length (packet_data (self w'))) = 10000 ∧
     10000 < packet_count (self w')) ∧
  (∀ appended : list packet_info,
     packet_count (self (append_all appended w).2) = Z.of_nat (length appended)).
Proof.
  cbv zeta. destruct (capture_eq inputs {| self := set_alerts rules (init t); trace := tr |})
    as [Hret Hself].
  rewrite Hself. cbn [self]. split; [done|].
  set (records := omap _ inputs).
  assert (Hcount : packet_count (store_all (set_alerts rules (init t)) records)
                   = Z.of_nat (length records)).
  { rewrite store_all_count. cbn [packet_count set_alerts init]. lia. }
  assert (Hlen : Z.of_nat (length (packet_data (store_all (set_alerts rules (init t)) records)))
                 = Z.min (Z.of_nat (length records)) 10000).
  { by apply store_all_length. }
  split; [done|]. split; [by apply store_all_data_empty|]. split; [done|]. split.
  - intros Hmany. rewrite Hlen, Hcount. lia.
  - intros appended. rewrite append_all_self, store_all_count.
    cbn [self packet_count set_alerts init]. lia.
Qed.

Lemma packet_count_counts_every_record_witness :
  let w' := (capture (replicate (Z.to_nat 10001) (env0, tcp_packet))
               {| self := set_alerts [] (init 0); trace := [] |}).2 in
  Z.of_nat (length (packet_data (self w'))) = 10000 ∧
  10000 < packet_count (self w').
Proof.
  destruct (packet_count_counts_every_record 0 [] []
              (replicate (Z.to_nat 10001) (env0, tcp_packet)))
    as (_ & _ & _ & _ & Hmany & _).
  apply Hmany. vm_compute. reflexivity.
Defined.

(** ** More on the classifier *)

Lemma other_label_not_named (n : Z) :
  "OTHER(" +:+ pretty n +:+ ")" ≠ "ICMP" ∧
  "OTHER(" +:+ pretty n +:+ ")" ≠ "TCP" ∧
  "OTHER(" +:+ pretty n +:+ ")" ≠ "UDP".
Proof. split_and!; intros H; hnf in H; discriminate. Qed.

Lemma protocol_label_inj (p : PacketProcessor) (n m : Z) :
  protocol_map p = protocol_map (init 0) →
  get_protocol_name p n = get_protocol_name p m → n = m.
Proof.
  intros Hmap.
  assert (Hother : ∀ k, k ≠ 1 → k ≠ 6 → k ≠ 17 →
            get_protocol_name p k = "OTHER(" +:+ pretty k +:+ ")").
  { intros k ???. unfold get_protocol_name.
    by rewrite Hmap, protocol_map_unknown. }
  assert (Hnamed : get_protocol_name p 1 = "ICMP" ∧ get_protocol_name p 6 = "TCP" ∧
                   get_protocol_name p 17 = "UDP").
  { unfold get_protocol_name. by rewrite Hmap. }
  destruct Hnamed as (H1 & H6 & H17).
  destruct (decide (n = 1)) as [->|?]; [|destruct (decide (n = 6)) as [->|?];
    [|destruct (decide (n = 17)) as [->|?]]];
  (destruct (decide (m = 1)) as [->|?]; [|destruct (decide (m = 6)) as [->|?];
    [|destruct (decide (m = 17)) as [->|?]]]);
  rewrite ?H1, ?H6, ?H17, ?Hother by done; intros Heq; try done;
  try (by destruct (other_label_not_named m) as (? & ? & ?));
  try (by destruct (other_label_not_named n) as (? & ? & ?)).
  by apply other_label_inj.
Qed.

(** X1: with the map of [__init__], [get_protocol_name] is injective on all
    integers: the label determines the protocol number, also between the
    three named protocols and the others. *)
Theorem get_protocol_name_injective (p : PacketProcessor) (n m : Z) :
  protocol_map p = protocol_map (init 0) →
  get_protocol_name p n = get_protocol_name p m → n = m.
Proof. apply protocol_label_inj. Qed.

Lemma get_protocol_name_injective_witness :
  get_protocol_name (init 0) 6 = get_protocol_name (init 0) 6 ∧ 6 = 6.
Proof.
  split; [reflexivity|].
  exact (get_protocol_name_injective (init 0) 6 6 eq_refl eq_refl).
Defined.

(** ** More on the store *)

(** X2: one append on any history, also one longer than 10000 (the list is
    a public attribute): the call returns, the counter grows by one, the
    new record is the last, and at most one record, the oldest, is removed,
    exactly when the history held 10000 or more.  So a history of length up
    to 10000 stays within 10000, and a longer one keeps its length: it is
    never cut back to 10000. *)
Theorem append_record_single_eviction (info : packet_info) (w : World) :
  let data := packet_data (self w) in
  let w' := (append_record info w).2 in
  (append_record info w).1 = Returns tt ∧
  packet_count (self w') = packet_count (self w) + 1 ∧
  packet_data (self w') =
    (if bool_decide (10000 ≤ Z.of_nat (length data))
     then drop 1 (data ++ [info]) else data ++ [info]) ∧
  last (packet_data (self w')) = Some info ∧
  Z.of_nat (length (packet_data (self w'))) =
    Z.max (Z.of_nat (length data)) (Z.min (Z.of_nat (length data) + 1) 10000) ∧
  trace w' = trace w.
Proof.
  cbv zeta. rewrite append_record_eq. cbn [fst snd self set_self trace].
  split; [done|]. split; [done|].
  assert (Hdata : packet_data (stored info (self w)) =
            if bool_decide (10000 ≤ Z.of_nat (length (packet_data (self w))))
            then drop 1 (packet_data (self w) ++ [info])
            else packet_data (self w) ++ [info]).
  { cbn [stored packet_data set_packet_data]. unfold evict.
    rewrite length_app. cbn [length].
    repeat case_bool_decide; try lia; [|done].
    by destruct (packet_data (self w) ++ [info]). }
  split; [done|]. split; [apply last_evict|]. split; [|done].
  rewrite Hdata. case_bool_decide.
  - rewrite length_drop, length_app. cbn [length]. lia.
  - rewrite length_app. cbn [length]. lia.
Qed.

(** ** What a call of [process_packet] leaves alone *)

Lemma evict_length_le (data : list packet_info) :
  (length (evict data) ≤ length data)%nat.
Proof.
  unfold evict. case_bool_decide; [|done]. destruct data; simpl; lia.
Qed.

(** X3: whatever the packet, [process_packet] changes neither the rules,
    nor the protocol map, nor the start time; the counter stays or grows by
    one, the history grows by at most one record, and the events already on
    the log and the UI channel stay in front of the new ones. *)
Theorem process_packet_frame (env : environment) (packet : Packet) (w : World) :
  let w' := (process_packet env packet w).2 in
  alerts (self w') = alerts (self w) ∧
  protocol_map (self w') = protocol_map (self w) ∧
  start_time (self w') = start_time (self w) ∧
  (packet_count (self w') = packet_count (self w) ∨
   packet_count (self w') = packet_count (self w) + 1) ∧
  (length (packet_data (self w')) ≤ S (length (packet_data (self w))))%nat ∧
  trace w `prefix_of` trace w'.
Proof.
  cbv zeta.
  destruct (process_packet_cases env packet w)
    as [[-> _]|[(h & _ & _ & ->)|(h & pre & c & m & post & e & _ & _ & _ & _ & ->)]];
    cbn [snd self set_self add_events trace stored set_packet_data set_packet_count
         alerts protocol_map start_time packet_count packet_data].
  - split_and!; try done; [by left | lia].
  - split_and!; try done; [by right | | by apply prefix_app_r].
    etrans; [apply evict_length_le|]. rewrite length_app. simpl. lia.
  - split_and!; try done; [by left | lia | by apply prefix_app_r].
Qed.

(** ** The fields of a record *)

Lemma record_stages_eq env packet h w :
  first_IP (layers packet) = Some h →
  record_stages env packet w =
    (Returns (built_record env (self w) h packet),
     add_events (geo_log (geocode env (ip_src h))) w).
Proof.
  intros H. unfold record_stages.
  rewrite (bind_returns _ _ _ _ _ (base_info_eq env packet h w H)).
  rewrite (bind_returns _ _ _ _ _ (add_transport_eq packet _ w)).
  apply (add_geo_eq env packet h _ w H).
Qed.

Lemma built_record_base env p h packet :
  built_record env p h packet !! "timestamp" = Some (VDatetime (now_timestamp env)) ∧
  built_record env p h packet !! "source" = Some (VStr (ip_src h)) ∧
  built_record env p h packet !! "destination" = Some (VStr (ip_dst h)) ∧
  built_record env p h packet !! "protocol" = Some (VStr (get_protocol_name p (ip_proto h))) ∧
  built_record env p h packet !! "size" = Some (VInt (Z.of_nat (wire_len packet))) ∧
  built_record env p h packet !! "time_relative" =
    Some (VSeconds (now_relative env - start_time p)).
Proof.
  unfold built_record. rewrite !geo_dict_other_key by done.
  unfold transport_dict, base_dict.
  destruct (first_TCP (layers packet)); [|destruct (first_UDP (layers packet))];
    by simplify_map_eq.
Qed.

Lemma built_record_dom env p h packet :
  dom (built_record env p h packet) =
    base_keys ∪
    (if TCP_in packet then {[ "src_port"; "dst_port"; "tcp_flags" ]}
     else if UDP_in packet then {[ "src_port"; "dst_port" ]} else ∅) ∪
    (match geocode env (ip_src h) with
     | Returns (Some _) => {[ "latitude"; "longitude" ]}
     | _ => ∅
     end).
Proof.
  unfold built_record, geo_dict, transport_dict, base_dict, TCP_in, UDP_in, base_keys.
  destruct (geocode env (ip_src h)) as [[loc|]|e];
    (destruct (first_TCP (layers packet)); [|destruct (first_UDP (layers packet))]);
    rewrite ?bool_decide_eq_true_2 by eauto;
    rewrite ?(bool_decide_eq_false_2 (is_Some None)) by (by intros ?%is_Some_None);
    rewrite !dom_insert_L, dom_empty_L; set_solver.
Qed.

(** X4: for a packet with an IP header the stages of lines 60-91 return a
    record whose six base fields are the first clock reading, the addresses
    and the named protocol of the first IP header, the length of the
    packet, and the second clock reading less the start time; its keys are
    these six, the transport keys of the TCP or else UDP header, and the two
    coordinates when the geocoder returned a location; nothing else. *)
Theorem record_fields (env : environment) (packet : Packet) (h : IP) (w : World) :
  first_IP (layers packet) = Some h →
  ∃ info w',
    record_stages env packet w = (Returns info, w') ∧
    info !! "timestamp" = Some (VDatetime (now_timestamp env)) ∧
    info !! "source" = Some (VStr (ip_src h)) ∧
    info !! "destination" = Some (VStr (ip_dst h)) ∧
    info !! "protocol" = Some (VStr (get_protocol_name (self w) (ip_proto h))) ∧
    info !! "size" = Some (VInt (Z.of_nat (wire_len packet))) ∧
    info !! "time_relative" = Some (VSeconds (now_relative env - start_time (self w))) ∧
    dom info =
      base_keys ∪
      (if TCP_in packet then {[ "src_port"; "dst_port"; "tcp_flags" ]}
       else if UDP_in packet then {[ "src_port"; "dst_port" ]} else ∅) ∪
      (match geocode env (ip_src h) with
       | Returns (Some _) => {[ "latitude"; "longitude" ]}
       | _ => ∅
       end).
Proof.
  intros H. eexists _, _. split; [by apply record_stages_eq|].
  destruct (built_record_base env (self w) h packet) as (?&?&?&?&?&?).
  split_and!; try done. apply built_record_dom.
Qed.

Lemma record_fields_witness :
  ∃ info w',
    record_stages env_found tunnel_packet w0 = (Returns info, w') ∧
    info !! "source" = Some (VStr "192.0.2.1") ∧
    info !! "protocol" = Some (VStr "UDP") ∧
    info !! "size" = Some (VInt 1400).
Proof.
  destruct (record_fields env_found tunnel_packet
              {| ip_src := "192.0.2.1"; ip_dst := "192.0.2.2"; ip_proto := 17 |}
              w0 eq_refl)
    as (info & w' & Hrun & _ & Hsrc & _ & Hproto & Hsize & _).
  exists info, w'. split; [exact Hrun|]. split; [exact Hsrc|].
  split; [exact Hproto | exact Hsize].
Defined.

(** ** The protocol label, the layers, and the rule of [main] *)

Lemma protocol_label_iff (p : PacketProcessor) (n k : Z) (name : string) :
  protocol_map p = protocol_map (init 0) →
  get_protocol_name p k = name →
  (get_protocol_name p n = name ↔ n = k).
Proof.
  intros Hmap Hk. split.
  - intros Hn. apply (protocol_label_inj p); [done|]. by rewrite Hn, Hk.
  - by intros ->.
Qed.

Lemma built_record_protocol_iff env (p : PacketProcessor) h packet (k : Z) (name : string) :
  protocol_map p = protocol_map (init 0) →
  get_protocol_name p k = name →
  (built_record env p h packet !! "protocol" = Some (VStr name) ↔ ip_proto h = k).
Proof.
  intros Hmap Hk.
  destruct (built_record_base env p h packet) as (_&_&_&->&_&_).
  rewrite <- (protocol_label_iff p _ k name Hmap Hk).
  split; [by intros [= ->] | by intros ->].
Qed.

Lemma built_record_tcp_flags env p h packet :
  is_Some (built_record env p h packet !! "tcp_flags") ↔ TCP_in packet = true.
Proof.
  unfold built_record. rewrite geo_dict_other_key by done.
  rewrite TCP_in_true. unfold transport_dict, base_dict.
  destruct (first_TCP (layers packet)); [|destruct (first_UDP (layers packet))];
    simplify_map_eq; (split; [intros Hs | intros Hs]); eauto;
    solve [ by apply is_Some_None in Hs | by destruct Hs ].
Qed.

(** X5: the [protocol] field comes from the protocol number of the first
    IP header alone: it is TCP, UDP or ICMP exactly for the numbers 6, 17
    and 1, whatever layers the packet has, while [tcp_flags] is there
    exactly when the packet has a TCP layer.  The two need not agree. *)
Theorem protocol_field_from_IP_header (env : environment) (packet : Packet) (h : IP)
    (w w' : World) (info : packet_info) :
  protocol_map (self w) = protocol_map (init 0) →
  first_IP (layers packet) = Some h →
  record_stages env packet w = (Returns info, w') →
  (info !! "protocol" = Some (VStr "TCP") ↔ ip_proto h = 6) ∧
  (info !! "protocol" = Some (VStr "UDP") ↔ ip_proto h = 17) ∧
  (info !! "protocol" = Some (VStr "ICMP") ↔ ip_proto h = 1) ∧
  (is_Some (info !! "tcp_flags") ↔ TCP_in packet = true).
Proof.
  intros Hmap H Hrun. rewrite (record_stages_eq env packet h w H) in Hrun.
  injection Hrun as <- <-.
  split_and!; [apply built_record_protocol_iff; try done..|apply built_record_tcp_flags];
    unfold get_protocol_name; by rewrite Hmap.
Qed.

Lemma protocol_field_from_IP_header_witness :
  ∃ info w',
    record_stages env0 tunnel_packet w0 = (Returns info, w') ∧
    info !! "protocol" = Some (VStr "UDP") ∧
    is_Some (info !! "tcp_flags").
Proof.
  pose (h := {| ip_src := "192.0.2.1"; ip_dst := "192.0.2.2"; ip_proto := 17 |}).
  exists (built_record env0 (init 0) h tunnel_packet), w0.
  destruct (protocol_field_from_IP_header env0 tunnel_packet h w0 w0
              (built_record env0 (init 0) h tunnel_packet) eq_refl eq_refl eq_refl)
    as (_ & Hudp & _ & Hflags).
  split; [reflexivity|]. split; [by apply Hudp | by apply Hflags].
Defined.

Lemma large_tcp_built_record env (p : PacketProcessor) h packet :
  protocol_map p = protocol_map (init 0) →
  large_tcp (built_record env p h packet) =
    Returns (bool_decide (ip_proto h = 6 ∧ 1000 < Z.of_nat (wire_len packet))).
Proof.
  intros Hmap.
  assert (Htcp : built_record env p h packet !! "protocol" = Some (VStr "TCP")
                 ↔ ip_proto h = 6).
  { apply built_record_protocol_iff; [done|]. unfold get_protocol_name. by rewrite Hmap. }
  destruct (built_record_base env p h packet) as (_&_&_&Hproto&Hsize&_).
  unfold large_tcp. rewrite Hproto, Hsize. rewrite Hproto in Htcp.
  destruct (decide (ip_proto h = 6)) as [H6|H6].
  - rewrite bool_decide_eq_true_2 by (by apply Htcp in H6 as [= ->]).
    f_equal. apply bool_decide_ext. tauto.
  - rewrite bool_decide_eq_false_2.
    + by rewrite bool_decide_eq_false_2 by tauto.
    + intros Heq. apply H6, Htcp. by rewrite Heq.
Qed.

(** X6: on the record of any packet with an IP header the rule of [main]
    returns, never raises, and holds exactly when the protocol number is 6
    and the packet is longer than 1000 bytes. *)
Theorem large_tcp_on_record (env : environment) (packet : Packet) (h : IP)
    (w w' : World) (info : packet_info) :
  protocol_map (self w) = protocol_map (init 0) →
  first_IP (layers packet) = Some h →
  record_stages env packet w = (Returns info, w') →
  large_tcp info =
    Returns (bool_decide (ip_proto h = 6 ∧ 1000 < Z.of_nat (wire_len packet))).
Proof.
  intros Hmap H Hrun.
  rewrite (record_stages_eq env packet h w H) in Hrun. injection Hrun as <- <-.
  by apply large_tcp_built_record.
Qed.

Lemma large_tcp_on_record_witness :
  large_tcp tcp_info = Returns true.
Proof.
  exact (large_tcp_on_record env0 tcp_packet
           {| ip_src := "10.0.0.1"; ip_dst := "10.0.0.2"; ip_proto := 6 |}
           w0 w0 tcp_info eq_refl eq_refl eq_refl).
Defined.

(** ** Registering rules *)

Lemma rules_events_app info (rules1 rules2 : list (condition * string)) : ∀ i,
  rules_events info i (rules1 ++ rules2) =
    rules_events info i rules1 ++ rules_events info (i + length rules1) rules2.
Proof.
  induction rules1 as [|rule rules1 IH]; intros i; simpl.
  - by rewrite Nat.add_0_r.
  - rewrite IH, <- app_assoc.
    by replace (S i + length rules1)%nat with (i + S (length rules1))%nat by lia.
Qed.

Lemma add_alert_eq cond message w :
  add_alert cond message w =
    (Returns tt, set_self (set_alerts (alerts (self w) ++ [(cond, message)]) (self w)) w).
Proof. reflexivity. Qed.

(** X7: [add_alert] puts the rule at the end of the list and touches
    nothing else (history, counter, log); on a record on which the rules
    return, the alert check that follows calls the old rules as before and
    the new rule last. *)
Theorem add_alert_appends (cond : condition) (message : string)
    (info : packet_info) (w : World) :
  let w1 := (add_alert cond message w).2 in
  (add_alert cond message w).1 = Returns tt ∧
  alerts (self w1) = alerts (self w) ++ [(cond, message)] ∧
  packet_data (self w1) = packet_data (self w) ∧
  packet_count (self w1) = packet_count (self w) ∧
  trace w1 = trace w ∧
  (Forall (returns_on info) (alerts (self w)) →
   returns_on info (cond, message) →
   check_alerts info w1 =
     (Returns tt,
      add_events (rules_events info 0 (alerts (self w)) ++
                  rule_events info (length (alerts (self w))) (cond, message)) w1)).
Proof.
  cbv zeta. rewrite add_alert_eq. cbn [fst snd]. split_and!; try done.
  intros Hold Hnew. rewrite check_alerts_eq.
  cbn [self set_self alerts set_alerts].
  rewrite check_rules_all_return by (apply Forall_app; split; [done | by constructor]).
  rewrite rules_events_app. simpl. by rewrite app_nil_r.
Qed.

Lemma add_alert_appends_witness :
  check_alerts tcp_info (add_alert large_tcp large_tcp_message w_main).2 =
    (Returns tt,
     add_events [Called 0; StWarning "Alert: Large TCP packet detected";
                 Called 1; StWarning "Alert: Large TCP packet detected"]
       (add_alert large_tcp large_tcp_message w_main).2).
Proof.
  destruct (add_alert_appends large_tcp large_tcp_message tcp_info w_main)
    as (_ & _ & _ & _ & _ & Hcheck).
  apply Hcheck.
  - repeat constructor. exists true. reflexivity.
  - exists true. reflexivity.
Defined.

Lemma session_add_alerts (rules : list (condition * string)) : ∀ w,
  session ((λ rule, AddAlert rule.1 rule.2) <$> rules) w =
    (Returns tt, set_self (set_alerts (alerts (self w) ++ rules) (self w)) w).
Proof.
  induction rules as [|[cond message] rules IH]; intros w.
  - simpl. rewrite app_nil_r. by destruct w as [[]].
  - simpl. rewrite (bind_returns _ _ _ _ _ (add_alert_eq cond message w)).
    rewrite IH. cbn [self set_self alerts set_alerts trace]. by rewrite <- app_assoc.
Qed.

Lemma rules_events_replicate info (rule : condition * string) (k : nat) : ∀ i,
  rule.1 info = Returns true →
  warnings (rules_events info i (replicate k rule)) = replicate k ("Alert: " +:+ rule.2).
Proof.
  induction k as [|k IH]; intros i Hrule; [done|].
  simpl. rewrite warnings_app, IH by done. unfold rule_events. by rewrite Hrule.
Qed.

Lemma rules_events_replicate_false info (rule : condition * string) (k : nat) : ∀ i,
  rule.1 info = Returns false →
  warnings (rules_events info i (replicate k rule)) = [].
Proof.
  induction k as [|k IH]; intros i Hrule; [done|].
  simpl. rewrite warnings_app, IH by done. unfold rule_events. by rewrite Hrule.
Qed.

(** X8: [main] registers its rule again on every run of the script (lines
    207-210).  After [k] runs on a new processor, every packet with an IP
    header is stored and counted (the rule never raises), and a packet with
    protocol number 6 and more than 1000 bytes shows the warning [k]
    times, any other packet none. *)
Theorem rule_of_main_registered_again (k : nat) (t : Z) (env : environment)
    (packet : Packet) (h : IP) :
  first_IP (layers packet) = Some h →
  let w := (session (replicate k (AddAlert large_tcp large_tcp_message))
              {| self := init t; trace := [] |}).2 in
  let w' := (process_packet env packet w).2 in
  alerts (self w) = replicate k (large_tcp, large_tcp_message) ∧
  packet_count (self w') = 1 ∧
  length (packet_data (self w')) = 1%nat ∧
  warnings (trace w') =
    replicate (if bool_decide (ip_proto h = 6 ∧ 1000 < Z.of_nat (wire_len packet))
               then k else 0%nat)
      "Alert: Large TCP packet detected".
Proof.
  intros H. cbv zeta.
  pose proof (session_add_alerts (replicate k (large_tcp, large_tcp_message))
                {| self := init t; trace := [] |}) as Hs.
  rewrite fmap_replicate in Hs. cbn [fst snd] in Hs. rewrite Hs. cbn [snd].
  set (w := set_self _ _).
  assert (Hmap : protocol_map (self w) = protocol_map (init 0)) by done.
  assert (Hrule : large_tcp (built_record env (self w) h packet) =
            Returns (bool_decide (ip_proto h = 6 ∧ 1000 < Z.of_nat (wire_len packet)))).
  { by apply large_tcp_built_record. }
  split; [done|].
  rewrite (process_packet_stored env packet h w H).
  2:{ apply Forall_forall. intros rule ->%elem_of_replicate_inv.
      eexists. exact Hrule. }
  cbn [snd self set_self add_events trace stored set_packet_data set_packet_count
       packet_count packet_data].
  split; [done|]. split; [done|].
  change (trace w) with (@nil event). rewrite app_nil_l, warnings_app.
  assert (Hgeo : warnings (geo_log (geocode env (ip_src h))) = []).
  { by destruct (geocode env (ip_src h)) as [[?|]|?]. }
  rewrite Hgeo, app_nil_l.
  change (alerts (self w)) with (replicate k (large_tcp, large_tcp_message)).
  case_bool_decide as Hhit.
  - by rewrite rules_events_replicate.
  - by rewrite rules_events_replicate_false.
Qed.

Lemma rule_of_main_registered_again_witness :
  warnings (trace (process_packet env0 tcp_packet
                     (session (replicate 3 (AddAlert large_tcp large_tcp_message))
                        {| self := init 0; trace := [] |}).2).2) =
    replicate 3 "Alert: Large TCP packet detected".
Proof.
  destruct (rule_of_main_registered_again 3 0 env0 tcp_packet
              {| ip_src := "10.0.0.1"; ip_dst := "10.0.0.2"; ip_proto := 6 |} eq_refl)
    as (_ & _ & _ & Hw).
  exact Hw.
Defined.

(** ** Sessions *)

Lemma get_dataframe_eq w :
  get_dataframe w = (Returns (DataFrame_of_dicts (packet_data (self w))), w).
Proof. reflexivity. Qed.

Lemma built_record_complete env p h packet :
  complete_record (built_record env p h packet).
Proof.
  unfold complete_record. rewrite built_record_dom. unfold base_keys.
  destruct (geocode env (ip_src h)) as [[loc|]|e];
    destruct (TCP_in packet), (UDP_in packet); set_solver.
Qed.

Lemma stored_record_complete p input info :
  stored_record p input = Some info → complete_record info.
Proof.
  unfold stored_record. destruct (first_IP _) as [h|]; [|done]. cbv zeta.
  destruct (forallb _ _); [|done]. intros [= <-]. apply built_record_complete.
Qed.

Lemma evict_Forall (P : packet_info → Prop) data :
  Forall P data → Forall P (evict data).
Proof.
  unfold evict. case_bool_decide; [|done]. destruct data; [done|].
  by intros [_ ?]%Forall_cons.
Qed.

Lemma stored_invariant info p :
  complete_record info → session_invariant p → session_invariant (stored info p).
Proof.
  intros Hinfo (Hlen & Hall & Hmap). split_and!; [| |done].
  - cbn [stored packet_data packet_count set_packet_data set_packet_count].
    unfold evict. rewrite length_app. cbn [length]. case_bool_decide as Hover.
    + destruct (packet_data p ++ [info]) as [|x rest] eqn:E.
      { by destruct (packet_data p). }
      apply (f_equal length) in E. rewrite length_app in E. simpl in E.
      simpl. lia.
    + rewrite length_app. cbn [length]. lia.
  - cbn [stored packet_data set_packet_data]. apply evict_Forall.
    apply Forall_app. split; [done | by constructor].
Qed.

Lemma invoke_invariant c w :
  session_invariant (self w) →
  (invoke c w).1 = Returns tt ∧
  session_invariant (self (invoke c w).2) ∧
  start_time (self (invoke c w).2) = start_time (self w) ∧
  packet_count (self w) ≤ packet_count (self (invoke c w).2)
    ≤ packet_count (self w) + packets_seen [c].
Proof.
  intros Hinv. destruct c as [env packet|cond message|]; simpl invoke.
  - split; [apply process_packet_returns|].
    rewrite process_packet_self.
    destruct (stored_record (self w) (env, packet)) as [info|] eqn:E.
    + split; [apply stored_invariant; [by eapply stored_record_complete | done]|].
      split; [done|]. unfold packets_seen. simpl. lia.
    + split; [done|]. split; [done|]. unfold packets_seen. simpl. lia.
  - rewrite add_alert_eq. cbn [fst snd self set_self]. split; [done|].
    split; [done|]. split; [done|]. unfold packets_seen. simpl. lia.
  - rewrite (bind_returns _ _ _ _ _ (get_dataframe_eq w)). cbn [fst snd].
    split; [done|]. split; [done|]. split; [done|]. unfold packets_seen. simpl. lia.
Qed.

Lemma packets_seen_cons c cs : packets_seen (c :: cs) = packets_seen [c] + packets_seen cs.
Proof.
  unfold packets_seen. destruct c; simpl; lia.
Qed.

Lemma session_invariant_kept cs : ∀ w,
  session_invariant (self w) →
  (session cs w).1 = Returns tt ∧
  session_invariant (self (session cs w).2) ∧
  start_time (self (session cs w).2) = start_time (self w) ∧
  packet_count (self w) ≤ packet_count (self (session cs w).2)
    ≤ packet_count (self w) + packets_seen cs.
Proof.
  induction cs as [|c cs IH]; intros w Hinv.
  - simpl. split_and!; try done. unfold packets_seen. simpl. lia.
  - destruct (invoke_invariant c w Hinv) as (Hret & Hinv1 & Hstart1 & Hcount1).
    simpl session. destruct (invoke c w) as [r w1] eqn:E. simpl in *. subst r.
    rewrite (bind_returns _ _ _ _ _ E).
    destruct (IH w1 Hinv1) as (Hret2 & Hinv2 & Hstart2 & Hcount2).
    rewrite packets_seen_cons. split_and!; try done; [congruence | lia | lia].
Qed.

Lemma init_invariant t : session_invariant (init t).
Proof. split_and!; [done | by constructor | done]. Qed.

(** X9: in any session on a new processor (calls of [process_packet],
    [add_alert] and [get_dataframe] in any order) every call returns, the
    start time and the protocol map stay as [__init__] set them, the counter
    is between 0 and the number of packets seen, and the history always
    holds [min(packet_count, 10000)] records. *)
Theorem session_keeps_history_in_step (t : Z) (cs : list method) :
  let w' := (session cs {| self := init t; trace := [] |}).2 in
  (session cs {| self := init t; trace := [] |}).1 = Returns tt ∧
  Z.of_nat (length (packet_data (self w'))) = Z.min (packet_count (self w')) 10000 ∧
  0 ≤ packet_count (self w') ≤ packets_seen cs ∧
  start_time (self w') = t ∧
  protocol_map (self w') = protocol_map (init t).
Proof.
  cbv zeta.
  destruct (session_invariant_kept cs {| self := init t; trace := [] |} (init_invariant t))
    as (Hret & (Hlen & _ & Hmap) & Hstart & Hcount).
  cbn [self init packet_count] in Hcount. split_and!; try done; lia.
Qed.

(** X10: the number the dashboard shows as "Total Packets" is the length of
    the frame [get_dataframe] returns, so after any session on a new
    processor it is [min(packet_count, 10000)]: it stops at 10000 while the
    counter goes on.  Reading it changes nothing. *)
Theorem total_packets_metric_saturates (t : Z) (cs : list method) :
  let w' := (session cs {| self := init t; trace := [] |}).2 in
  total_packets_metric w' = (Returns (Z.min (packet_count (self w')) 10000), w').
Proof.
  cbv zeta.
  destruct (session_invariant_kept cs {| self := init t; trace := [] |} (init_invariant t))
    as (_ & (Hlen & _ & _) & _ & _).
  set (w' := (session cs _).2) in *.
  unfold total_packets_metric.
  rewrite (bind_returns _ _ _ _ _ (get_dataframe_eq w')).
  unfold df_len. cbn [df_rows DataFrame_of_dicts]. by rewrite Hlen.
Qed.

(** ** The frame and what [main] reads from it *)

Lemma column_iff (data : list packet_info) (k : string) :
  k ∈ df_columns (DataFrame_of_dicts data) ↔ ∃ r, r ∈ data ∧ is_Some (r !! k).
Proof.
  cbn [df_columns DataFrame_of_dicts]. rewrite elem_of_union_list. split.
  - intros (X & HX & Hk). apply list_elem_of_fmap in HX as (r & -> & Hr).
    exists r. split; [done|]. by apply elem_of_dom.
  - intros (r & Hr & Hk). exists (dom r). split; [|by apply elem_of_dom].
    apply list_elem_of_fmap. by exists r.
Qed.

(** X11: after any session on a new processor, the frame has the column
    [latitude] exactly when it has the column [longitude], and the test that
    guards the map (line 144) holds exactly when some record of the history
    carries coordinates, that is when some lookup of a retained record
    returned a location. *)
Theorem map_drawn_iff_geolocated (t : Z) (cs : list method) :
  let w' := (session cs {| self := init t; trace := [] |}).2 in
  ∃ df,
    get_dataframe w' = (Returns df, w') ∧
    df_rows df = packet_data (self w') ∧
    ("latitude" ∈ df_columns df ↔ "longitude" ∈ df_columns df) ∧
    (has_geo_columns df = true ↔
     ∃ r, r ∈ packet_data (self w') ∧
          is_Some (r !! "latitude") ∧ is_Some (r !! "longitude")).
Proof.
  cbv zeta.
  destruct (session_invariant_kept cs {| self := init t; trace := [] |} (init_invariant t))
    as (_ & (_ & Hall & _) & _ & _).
  set (w' := (session cs _).2) in *.
  exists (DataFrame_of_dicts (packet_data (self w'))).
  split; [apply get_dataframe_eq|]. split; [done|].
  assert (Hboth : ∀ r, r ∈ packet_data (self w') →
            (is_Some (r !! "latitude") ↔ is_Some (r !! "longitude"))).
  { intros r Hr. rewrite Forall_forall in Hall.
    destruct (Hall r Hr) as [_ Hiff]. by rewrite <- !elem_of_dom. }
  assert (Hcols : "latitude" ∈ df_columns (DataFrame_of_dicts (packet_data (self w')))
                  ↔ "longitude" ∈ df_columns (DataFrame_of_dicts (packet_data (self w')))).
  { rewrite !column_iff. split; intros (r & Hr & Hk); exists r; (split; [done|]);
      by apply (Hboth r Hr). }
  split; [done|].
  unfold has_geo_columns. rewrite andb_true_iff, !bool_decide_eq_true.
  rewrite <- Hcols, column_iff. split.
  - intros [(r & Hr & Hk) _]. exists r. split_and!; [done..|]. by apply (Hboth r Hr).
  - intros (r & Hr & Hk & _). split; by exists r.
Qed.

Lemma recent_columns_base : ∀ c, c ∈ recent_columns → c ∈ base_keys.
Proof.
  intros c Hc. unfold recent_columns in Hc. unfold base_keys.
  repeat (apply elem_of_cons in Hc as [->|Hc]; [set_solver|]).
  by apply elem_of_nil in Hc.
Qed.

Lemma select_row_dom (r : packet_info) :
  complete_record r →
  dom (filter (λ kv : string * value, kv.1 ∈ recent_columns) r) = list_to_set recent_columns.
Proof.
  intros [Hbase _]. apply dom_filter_L. intros c. rewrite elem_of_list_to_set. split.
  - intros Hc. assert (Hin : c ∈ dom r) by (by apply Hbase, recent_columns_base).
    apply elem_of_dom in Hin as [x Hx]. by exists x.
  - by intros (x & _ & Hc).
Qed.

(** X12: after any session on a new processor, selecting the five columns
    of the "Recent Packets" table (lines 200-204) never raises [KeyError]:
    with an empty history nothing is shown; otherwise the table is the last
    [min(10, n)] records of the history cut down to these columns, and
    every row has a value in each of the five. *)
Theorem recent_packets_never_raises (t : Z) (cs : list method) :
  let w' := (session cs {| self := init t; trace := [] |}).2 in
  let data := packet_data (self w') in
  ∃ df,
    get_dataframe w' = (Returns df, w') ∧
    (data = [] → recent_packets df = Returns None) ∧
    (data ≠ [] →
     ∃ shown,
       recent_packets df = Returns (Some shown) ∧
       df_columns shown = list_to_set recent_columns ∧
       df_rows shown =
         filter (λ kv : string * value, kv.1 ∈ recent_columns) <$>
           drop (length data - 10) data ∧
       length (df_rows shown) = (length data `min` 10)%nat ∧
       Forall (λ r, dom r = list_to_set recent_columns) (df_rows shown)).
Proof.
  cbv zeta.
  destruct (session_invariant_kept cs {| self := init t; trace := [] |} (init_invariant t))
    as (_ & (_ & Hall & _) & _ & _).
  set (w' := (session cs _).2) in *.
  set (data := packet_data (self w')) in *.
  exists (DataFrame_of_dicts data). split; [apply get_dataframe_eq|]. split.
  - intros ->. reflexivity.
  - intros Hne. eexists. split.
    + unfold recent_packets, df_len. cbn [df_rows DataFrame_of_dicts].
      rewrite bool_decide_eq_true_2 by (destruct data; [done | simpl; lia]).
      unfold df_select. cbn [df_columns df_tail].
      assert (Hcols : forallb (λ c, bool_decide (c ∈ df_columns (DataFrame_of_dicts data)))
                        recent_columns = true).
      { apply forallb_forall. intros c Hc%list_elem_of_In.
        apply bool_decide_eq_true. apply column_iff.
        destruct data as [|r data']; [done|]. exists r. split; [by left|].
        apply Forall_cons in Hall as [[Hbase _] _].
        apply elem_of_dom, Hbase. by apply recent_columns_base. }
      rewrite Hcols. reflexivity.
    + cbn [df_columns df_rows df_tail DataFrame_of_dicts].
      split; [done|]. split; [done|]. split.
      * rewrite length_fmap, length_drop. lia.
      * apply Forall_fmap, Forall_drop.
        eapply Forall_impl; [exact Hall|]. intros r Hr. simpl.
        by apply select_row_dom.
Qed.

Lemma recent_packets_never_raises_witness :
  ∃ shown,
    recent_packets (DataFrame_of_dicts
      (packet_data (self (session [ProcessPacket env0 tcp_packet]
                            {| self := init 0; trace := [] |}).2))) =
      Returns (Some shown) ∧
    length (df_rows shown) = 1%nat.
Proof.
  destruct (recent_packets_never_raises 0 [ProcessPacket env0 tcp_packet])
    as (df & Hdf & _ & Hshown).
  destruct Hshown as (shown & Hrun & _ & _ & Hlen & _).
  - intros Hempty. apply (f_equal length) in Hempty. vm_compute in Hempty. discriminate.
  - exists shown. split; [|exact Hlen].
    rewrite get_dataframe_eq in Hdf. injection Hdf as <-. exact Hrun.
Defined.
